(** * A shallow embedding of the test-plan validator ([dsl.py]) and of the
    hybrid search ([search.py]) of ai-cpp-tester.

    Python values are embedded at the types the code gives them: strings as
    [string], [dict]s keyed by strings as [gmap string _], lists as
    [list], [int] as [Z] or [nat], [float] as the kernel's binary64 [float].
    An exception is a value of [exn]; a call that may raise returns an
    [outcome].  The validator mutates one [DSLContext] and may raise: it is
    written in the state-and-exception monad [M], in which a raise keeps the
    state (a Python exception does not roll mutations back).

    A [string] stands for the Python string of the same ASCII characters:
    [isdigit] and [lower] below are [str.isdigit] and [str.lower] on such
    strings.  Outside ASCII Python knows more digits and more letters; what
    is stated of the digits of a token is stated for ASCII tokens
    ([ascii_string]). *)

From Stdlib Require Import ZArith Floats Ascii.
From stdpp Require Import gmap strings list pretty sorting.

Set Warnings "-register-all,-inexact-float,-clear-no-such-hyp".

(** ** Python values and exceptions *)

(** The values a decoded JSON document is made of ([json.load]); numbers are
    integers here. *)
Inductive pyval :=
  | PNone
  | PBool (b : bool)
  | PInt (n : Z)
  | PStr (s : string)
  | PList (l : list pyval)
  | PDict (d : gmap string pyval).

(** The exception classes the two modules can raise, each with the text of
    its message.  The text of a [TypeError] varies between versions of
    Python (the name of the callee is part of it in some), and is kept
    short here; no statement below depends on it. *)
Inductive exn :=
  | DSLValidationError (msg : string)
  | KeyError (key : string)
  | AttributeError (msg : string)
  | TypeError (msg : string)
  | ValueError (msg : string)
  | ZeroDivisionError (msg : string).

Inductive outcome (A : Type) :=
  | Return (a : A)
  | Raise (e : exn).
Arguments Return {A} a.
Arguments Raise {A} e.

#[export] Instance outcome_ret : MRet outcome := λ A a, Return a.
#[export] Instance outcome_bind : MBind outcome := λ A B f c,
  match c with
  | Return a => f a
  | Raise e => Raise e
  end.

(** [hash(v)] succeeds: lists and dicts are unhashable. *)
Definition hashable (v : pyval) : bool :=
  match v with
  | PList _ | PDict _ => false
  | _ => true
  end.

(** [str(v)] as an f-string renders it, for the hashable values. *)
Definition py_str (v : pyval) : string :=
  match v with
  | PNone => "None"
  | PBool true => "True"
  | PBool false => "False"
  | PInt n => pretty n
  | PStr s => s
  | PList _ | PDict _ => ""
  end.

(** [type(v).__name__] *)
Definition py_type_name (v : pyval) : string :=
  match v with
  | PNone => "NoneType"
  | PBool _ => "bool"
  | PInt _ => "int"
  | PStr _ => "str"
  | PList _ => "list"
  | PDict _ => "dict"
  end.

(** What reading the attribute [name] of a value that has none raises. *)
Definition no_attribute (v : pyval) (name : string) : exn :=
  AttributeError
    ("'" +:+ py_type_name v +:+ "' object has no attribute '" +:+ name +:+ "'").

(** What hashing a list or a dict raises. *)
Definition unhashable (v : pyval) : exn :=
  TypeError ("unhashable type: '" +:+ py_type_name v +:+ "'").

(** [str(t)] of a value that is a string or [None]. *)
Definition str_or_None (t : option string) : string :=
  match t with
  | Some s => s
  | None => "None"
  end.

(** *** String methods *)

(** The characters of a string, and the strings of ASCII characters. *)
Fixpoint chars (s : string) : list ascii :=
  match s with
  | EmptyString => []
  | String c s' => c :: chars s'
  end.

Definition ascii_string (s : string) : Prop :=
  Forall (λ c, (nat_of_ascii c < 128)%nat) (chars s).

(** The ASCII characters that [str.isdigit] accepts are ["0"] to ["9"]. *)
Definition ascii_isdigit (c : ascii) : bool :=
  (48 <=? nat_of_ascii c)%nat && (nat_of_ascii c <=? 57)%nat.

Fixpoint all_digits (s : string) : bool :=
  match s with
  | EmptyString => true
  | String c s' => ascii_isdigit c && all_digits s'
  end.

(** [s.isdigit()] on an ASCII string: at least one character, and every
    character a digit.  (Outside ASCII, [str.isdigit] also accepts the other
    digits of Unicode, superscripts among them.) *)
Definition isdigit (s : string) : bool :=
  match s with
  | EmptyString => false
  | String _ _ => all_digits s
  end.

(** [s.replace(".", "", 1)]: the first full stop, if any, is dropped. *)
Fixpoint replace_dot_once (s : string) : string :=
  match s with
  | EmptyString => EmptyString
  | String c s' =>
      if Ascii.eqb c "." then s' else String c (replace_dot_once s')
  end.

(** [s.startswith("$")] *)
Definition startswith_dollar (s : string) : bool :=
  match s with
  | String c _ => Ascii.eqb c "$"
  | EmptyString => false
  end.

(** [s[1:]] *)
Definition drop_first (s : string) : string :=
  match s with
  | String _ s' => s'
  | EmptyString => EmptyString
  end.

(** ** The AST index ([ast.json]) *)

Record Param := { param_name : string; param_type : string }.

(** A method, constructor or free function record; [return_type] is [null]
    for constructors and destructors. *)
Record Method := {
  meth_kind : string;
  meth_name : string;
  meth_fqn : string;
  meth_return_type : option string;
  meth_params : list Param
}.

Record Field := { field_name : string; field_type : string }.

(** A class record.  The key ["fields"] is optional in the document and only
    read through [cls.get("fields", [])]: an absent key is the empty list. *)
Record Class := {
  class_kind : string;
  class_name : string;
  class_fqn : string;
  class_methods : list Method;
  class_fields : list Field
}.

Record File := { classes : list Class; functions : list Method }.

(** The index maps a file path to its record; [dict.values()] walks it in
    insertion order. *)
Definition AstIndex := list (string * File).

(** What the flat symbol table holds: class dicts and function-shaped dicts. *)
Inductive Symbol :=
  | SymClass (c : Class)
  | SymFunction (m : Method).

Definition sym_kind (sym : Symbol) : string :=
  match sym with
  | SymClass c => class_kind c
  | SymFunction m => meth_kind m
  end.

Module Dsl.

(** ** Steps *)

Record AssertExpr := { expr_op : pyval; left : pyval; right : pyval }.

(** The five step classes at the types of their annotations ([Any] is
    [pyval]); [PlainStep] is an instance of the base class [Step] itself. *)
Inductive Step :=
  | CreateStep (id : string) (type : string) (args : list pyval)
  | CallStep (target : string) (method : string) (args : list pyval)
      (result : option string)
  | GetStep (target : string) (field : string) (result : string)
  | AssertStep (expr : AssertExpr)
  | ExpectFailStep (step : Z)
  | PlainStep (op : string).

(** [step.op], set by each class's [__init__]. *)
Definition op (s : Step) : string :=
  match s with
  | CreateStep _ _ _ => "create"
  | CallStep _ _ _ _ => "call"
  | GetStep _ _ _ => "get"
  | AssertStep _ => "assert"
  | ExpectFailStep _ => "expect_fail"
  | PlainStep o => o
  end.

Record TestPlan := { test : string; steps : list Step }.

(** ** JsonASTProvider *)

Record JsonASTProvider := {
  index : AstIndex;
  symbols : gmap string Symbol
}.

Definition add_class (syms : gmap string Symbol) (cls : Class)
  : gmap string Symbol :=
  fold_left (λ s m, <[meth_fqn m := SymFunction m]> s)
    (class_methods cls) (<[class_fqn cls := SymClass cls]> syms).

Definition add_file (syms : gmap string Symbol) (file : File)
  : gmap string Symbol :=
  fold_left (λ s fn, <[meth_fqn fn := SymFunction fn]> s)
    (functions file) (fold_left add_class (classes file) syms).

Definition _build_symbol_index (idx : AstIndex) : gmap string Symbol :=
  fold_left add_file (idx.*2) ∅.

(** [JsonASTProvider(ast_index)] *)
Definition JsonASTProvider_init (ast_index : AstIndex) : JsonASTProvider :=
  {| index := ast_index; symbols := _build_symbol_index ast_index |}.

(** [sym["kind"] in ("class_decl", "struct_decl")] *)
Definition is_class_kind (k : string) : bool :=
  bool_decide (k = "class_decl") || bool_decide (k = "struct_decl").

(** A symbol record is a non-empty dict, hence truthy: [sym and ...] only
    tests that the lookup found one. *)
Definition get_class (self : JsonASTProvider) (fqn : string)
  : option Symbol :=
  match symbols self !! fqn with
  | Some sym => if is_class_kind (sym_kind sym) then Some sym else None
  | None => None
  end.

Definition get_constructors (self : JsonASTProvider) (fqn : string)
  : outcome (list Method) :=
  match get_class self fqn with
  | None => Raise (DSLValidationError ("Unknown type '" +:+ fqn +:+ "'"))
  | Some (SymClass cls) =>
      Return (filter (λ m, meth_kind m = "constructor") (class_methods cls))
  | Some (SymFunction _) => Raise (KeyError "methods")
  end.

Definition find_method (self : JsonASTProvider) (class_fqn method_fqn : string)
  : option Method :=
  match get_class self class_fqn with
  | None => None
  | Some (SymClass cls) =>
      head (filter (λ m, meth_fqn m = method_fqn) (class_methods cls))
  | Some (SymFunction _) => None
  end.

(** ** DSLContext and the validator's monad *)

(** [ctx.variables] maps a variable to its type; a type is a string, or
    [None] when it was read from a [null] [return_type]. *)
Record DSLContext := {
  ast : JsonASTProvider;
  variables : gmap string (option string)
}.

Definition DSLContext_init (a : JsonASTProvider) : DSLContext :=
  {| ast := a; variables := ∅ |}.

(** [ctx.variables[k] = t] *)
Definition set_variable (k : string) (t : option string) (ctx : DSLContext)
  : DSLContext :=
  {| ast := ast ctx; variables := <[k := t]> (variables ctx) |}.

Definition M (A : Type) : Type := DSLContext → outcome A * DSLContext.

#[export] Instance M_ret : MRet M := λ A a ctx, (Return a, ctx).
#[export] Instance M_bind : MBind M := λ A B f c ctx,
  match c ctx with
  | (Return a, ctx') => f a ctx'
  | (Raise e, ctx') => (Raise e, ctx')
  end.

Definition raise {A} (e : exn) : M A := λ ctx, (Raise e, ctx).

(** A computation that only reads the context. *)
Definition reading {A} (f : DSLContext → outcome A) : M A :=
  λ ctx, (f ctx, ctx).

Definition assign_variable (k : string) (t : option string) : M unit :=
  λ ctx, (Return tt, set_variable k t ctx).

(** [try: body  except DSLValidationError as e: handler(e)]; every other
    exception passes through. *)
Definition try_except {A} (body : M A) (handler : string → M A) : M A :=
  λ ctx,
    match body ctx with
    | (Raise (DSLValidationError msg), ctx') => handler msg ctx'
    | r => r
    end.

(** ** Argument checking *)

(** [arg in ctx.variables] hashes [arg], and [arg.isdigit()] is a method of
    strings only.  On a string the last test, [isinstance(arg, str)], holds,
    so the [raise] that follows it is never reached. *)
Definition infer_arg_type (arg : pyval) (ctx : DSLContext)
  : outcome (option string) :=
  match arg with
  | PList _ | PDict _ => Raise (unhashable arg)
  | PNone | PBool _ | PInt _ => Raise (no_attribute arg "isdigit")
  | PStr s =>
      match variables ctx !! s with
      | Some t => Return t
      | None =>
          if isdigit s then Return (Some "int")
          else if isdigit (replace_dot_once s) then Return (Some "double")
          else if bool_decide (s = "true") || bool_decide (s = "false")
          then Return (Some "bool")
          else Return (Some "std::string")
      end
  end.

Definition is_type_compatible (actual : option string) (expected : string)
  : bool :=
  bool_decide (actual = Some expected).

(** The loop of [check_args] over [enumerate(zip(expected_params, actual_args))],
    from position [i]. *)
Fixpoint check_each (i : nat) (pairs : list (Param * pyval))
    (ctx : DSLContext) (where_ : string) : outcome unit :=
  match pairs with
  | [] => Return tt
  | (param, arg) :: rest =>
      let expected := param_type param in
      match infer_arg_type arg ctx with
      | Raise e => Raise e
      | Return actual =>
          if negb (is_type_compatible actual expected)
          then Raise (DSLValidationError
                 (where_ +:+ ": arg " +:+ pretty i +:+ " type mismatch: "
                  +:+ "expected " +:+ expected +:+ ", got "
                  +:+ str_or_None actual))
          else check_each (S i) rest ctx where_
      end
  end.

Definition check_args (expected_params : list Param)
    (actual_args : list pyval) (ctx : DSLContext) (where_ : string)
  : outcome unit :=
  if negb (length expected_params =? length actual_args)%nat
  then Raise (DSLValidationError
         (where_ +:+ ": expected " +:+ pretty (length expected_params)
          +:+ " args, got " +:+ pretty (length actual_args)))
  else check_each 0 (zip expected_params actual_args) ctx where_.

(** ** Step validators *)

(** The [for ctor in ctors] loop of [validate_create]. *)
Fixpoint try_constructors (ctors : list Method) (id type : string)
    (args : list pyval) : M unit :=
  match ctors with
  | [] =>
      raise (DSLValidationError ("No matching constructor for '" +:+ type +:+ "'"))
  | ctor :: rest =>
      try_except
        (reading (λ ctx, check_args (meth_params ctor) args ctx
                           ("constructor " +:+ type));;
         assign_variable id (Some type))
        (λ _, try_constructors rest id type args)
  end.

Definition validate_create (id type : string) (args : list pyval) : M unit :=
  ctors ← reading (λ ctx, get_constructors (ast ctx) type);
  try_constructors ctors id type args.

(** [not obj_type]: [None] (also for an unbound target) and [""] are falsy. *)
Definition truthy (t : option string) : bool :=
  match t with
  | Some s => negb (bool_decide (s = ""))
  | None => false
  end.

Definition validate_call (target method : string) (args : list pyval)
    (result : option string) : M unit :=
  obj_type ← reading (λ ctx, Return (mjoin (variables ctx !! target)));
  if negb (truthy obj_type)
  then raise (DSLValidationError ("Unknown variable '" +:+ target +:+ "'"))
  else
    let obj_type := default "" obj_type in
    found ← reading (λ ctx, Return (find_method (ast ctx) obj_type method));
    match found with
    | None =>
        raise (DSLValidationError
          ("Method '" +:+ method +:+ "' not found in '" +:+ obj_type +:+ "'"))
    | Some m =>
        reading (λ ctx, check_args (meth_params m) args ctx
                          (obj_type +:+ "::" +:+ method));;
        if truthy result
        then assign_variable (default "" result) (meth_return_type m)
        else mret tt
    end.

(** The last statement of [validate_get] stores into [ctx.values], an
    attribute [DSLContext] does not have. *)
Definition validate_get (target field result : string) : M unit :=
  λ ctx,
    match variables ctx !! target with
    | None =>
        (Raise (DSLValidationError ("Unknown target object '" +:+ target +:+ "'")), ctx)
    | Some ty =>
        match ty ≫= get_class (ast ctx) with
        | None => (Raise (DSLValidationError "Invalid target type"), ctx)
        | Some cls =>
            let fields :=
              match cls with
              | SymClass c => class_fields c
              | SymFunction _ => []
              end in
            let fqn :=
              match cls with
              | SymClass c => class_fqn c
              | SymFunction m => meth_fqn m
              end in
            if negb (bool_decide (field ∈ field_name <$> fields))
            then (Raise (DSLValidationError
                    ("Field '" +:+ field +:+ "' not found in '" +:+ fqn +:+ "'")), ctx)
            else (Raise (AttributeError
                    "'DSLContext' object has no attribute 'values'"), ctx)
        end
    end.

(** One operand of an assertion. *)
Definition check_side (side : pyval) (ctx : DSLContext) : outcome unit :=
  match side with
  | PStr s =>
      if startswith_dollar s && negb (bool_decide (is_Some (variables ctx !! drop_first s)))
      then Raise (DSLValidationError ("Unknown value reference '" +:+ s +:+ "'"))
      else Return tt
  | _ => Return tt
  end.

Definition validate_assert (expr : AssertExpr) : M unit :=
  reading (check_side (left expr));;
  reading (check_side (right expr)).

Definition validate_expect_fail (step : Z) : M unit :=
  if (step <? 0)%Z
  then raise (DSLValidationError "step index must be >= 0")
  else mret tt.

Definition validate_step (step : Step) : M unit :=
  match step with
  | CreateStep id type args => validate_create id type args
  | CallStep target method args result => validate_call target method args result
  | GetStep target field result => validate_get target field result
  | AssertStep expr => validate_assert expr
  | ExpectFailStep n => validate_expect_fail n
  | PlainStep _ => raise (DSLValidationError "Unsupported step type")
  end.

(** The loop of [validate_plan] over [enumerate(plan.steps)], from [idx]. *)
Fixpoint validate_steps (idx : nat) (steps : list Step) : M unit :=
  match steps with
  | [] => mret tt
  | step :: rest =>
      try_except (validate_step step)
        (λ e, raise (DSLValidationError
                ("Step " +:+ pretty idx +:+ " (" +:+ op step +:+ "): " +:+ e)));;
      validate_steps (S idx) rest
  end.

(** [validate_plan] returns nothing; the context it built is returned here
    next to the outcome so that the environment of a run can be spoken of. *)
Definition validate_plan (plan : TestPlan) (ast_provider : JsonASTProvider)
  : outcome unit * DSLContext :=
  validate_steps 0 (steps plan) (DSLContext_init ast_provider).

(** ** The failures of the specification's taxonomy

    The code has one exception class for them; a failure kind is told apart
    by the message it is raised with. *)

Definition UnknownType (fqn : string) : exn :=
  DSLValidationError ("Unknown type '" +:+ fqn +:+ "'").

Definition NoMatchingConstructor (type : string) : exn :=
  DSLValidationError ("No matching constructor for '" +:+ type +:+ "'").

Definition UnknownOperation (op : string) : exn :=
  DSLValidationError ("Unknown op '" +:+ op +:+ "'").

(** The annotation [validate_plan] puts in front of a step's error; other
    exceptions pass through it unchanged. *)
Definition annotated (idx : nat) (step : Step) (msg : string) : string :=
  "Step " +:+ pretty idx +:+ " (" +:+ op step +:+ "): " +:+ msg.

Definition annotate (idx : nat) (step : Step) (e : exn) : exn :=
  match e with
  | DSLValidationError msg => DSLValidationError (annotated idx step msg)
  | _ => e
  end.

(** The context in which the step at position [k] of a plan is validated:
    the one the first [k] steps leave. *)
Definition env_after (k : nat) (plan : TestPlan) (a : JsonASTProvider)
  : gmap string (option string) :=
  variables (validate_steps 0 (take k (steps plan)) (DSLContext_init a)).2.

(** What a step may do to the context: nothing, or return after one
    assignment to [ctx.variables]. *)
Definition untouched_or_assigned {A} (r : outcome A * DSLContext)
    (ctx : DSLContext) : Prop :=
  r.2 = ctx ∨ ∃ a k t, r = (Return a, set_variable k t ctx).

(** ** Vocabulary of the argument rules *)

(** An argument token is a string. *)
Definition is_token (arg : pyval) : Prop := ∃ s, arg = PStr s.

Definition digit_chars : list ascii :=
  ["0"; "1"; "2"; "3"; "4"; "5"; "6"; "7"; "8"; "9"]%char.

(** Composed entirely of digits: one digit at least, and digits only. *)
Definition composed_of_digits (s : string) : Prop :=
  s ≠ "" ∧ Forall (λ c, c ∈ digit_chars) (chars s).

(** An unsigned numeral with one decimal point: digits, a full stop, digits,
    with a digit on one side at least. *)
Definition point_numeral (s : string) : Prop :=
  ∃ p q, s = p +:+ "." +:+ q
    ∧ Forall (λ c, c ∈ digit_chars) (chars p)
    ∧ Forall (λ c, c ∈ digit_chars) (chars q)
    ∧ (p ≠ "" ∨ q ≠ "").

(** A decimal number as it is usually written: an optional sign in front of
    digits with at most one decimal point among them. *)
Definition parses_as_decimal (s : string) : bool :=
  let body :=
    match s with
    | String c s' => if Ascii.eqb c "-" || Ascii.eqb c "+" then s' else s
    | EmptyString => s
    end in
  isdigit body || isdigit (replace_dot_once body).

(** A constructor accepts the arguments: as many parameters as arguments,
    and each parameter's type is the type inferred for its argument. *)
Definition accepts (ctor : Method) (args : list pyval) (ctx : DSLContext)
  : Prop :=
  length (meth_params ctor) = length args ∧
  Forall2 (λ param arg, infer_arg_type arg ctx = Return (Some (param_type param)))
    (meth_params ctor) args.

(** ** The fruit library of the specification's examples *)

Definition Fruit : Class := {|
  class_kind := "class_decl"; class_name := "Fruit"; class_fqn := "lib::Fruit";
  class_methods := [
    {| meth_kind := "constructor"; meth_name := "Fruit";
       meth_fqn := "lib::Fruit::Fruit"; meth_return_type := None;
       meth_params := [{| param_name := "name"; param_type := "std::string" |}] |}
  ];
  class_fields := [{| field_name := "name"; field_type := "std::string" |}]
|}.

Definition BoxOfFruits : Class := {|
  class_kind := "class_decl"; class_name := "BoxOfFruits";
  class_fqn := "lib::BoxOfFruits";
  class_methods := [
    {| meth_kind := "constructor"; meth_name := "BoxOfFruits";
       meth_fqn := "lib::BoxOfFruits::BoxOfFruits"; meth_return_type := None;
       meth_params := [] |};
    {| meth_kind := "cxx_method"; meth_name := "add";
       meth_fqn := "lib::BoxOfFruits::add"; meth_return_type := Some "void";
       meth_params := [{| param_name := "fruit"; param_type := "lib::Fruit" |}] |};
    {| meth_kind := "cxx_method"; meth_name := "count";
       meth_fqn := "lib::BoxOfFruits::count"; meth_return_type := Some "int";
       meth_params := [] |}
  ];
  class_fields := []
|}.

Definition fruit_index : AstIndex :=
  [("fruit.hpp", {| classes := [Fruit; BoxOfFruits]; functions := [] |})].

Definition fruit_provider : JsonASTProvider := JsonASTProvider_init fruit_index.

(** The class [lib::Fruit] as an index that names the kind of a class
    ["type"] records it. *)
Definition typed_Fruit : Class := {|
  class_kind := "type"; class_name := "Fruit"; class_fqn := "lib::Fruit";
  class_methods := class_methods Fruit; class_fields := []
|}.

Definition typed_provider : JsonASTProvider :=
  JsonASTProvider_init
    [("fruit.hpp", {| classes := [typed_Fruit]; functions := [] |})].

(** [json_plan] of [dsl.py], parsed. *)
Definition json_plan : TestPlan := {|
  test := "transfer between accounts";
  steps := [
    CreateStep "box" "lib::BoxOfFruits" [];
    CreateStep "fruit_0" "lib::Fruit" [PStr "apple"];
    CreateStep "fruit_1" "lib::Fruit" [PStr "banana"];
    CallStep "box" "lib::BoxOfFruits::add" [PStr "fruit_0"] None;
    CallStep "box" "lib::BoxOfFruits::add" [PStr "fruit_1"] None;
    CallStep "box" "lib::BoxOfFruits::count" [] (Some "count");
    AssertStep {| expr_op := PStr "equals"; left := PStr "count"; right := PInt 2 |}
  ]
|}.

(** ** Parsing *)

(** What a step class's [__init__] builds.  The attributes hold whatever the
    document holds: no annotation is checked when a step is built. *)
Inductive StepObject :=
  | CreateObject (id type args : pyval)
  | CallObject (target method args result : pyval)
  | GetObject (target field result : pyval)
  | AssertObject (expr : AssertExpr)
  | ExpectFailObject (step : pyval).

(** [kw[key]] *)
Definition getitem (kw : gmap string pyval) (key : string) : outcome pyval :=
  match kw !! key with
  | Some v => Return v
  | None => Raise (KeyError key)
  end.

(** [kw.get(key, dflt)] *)
Definition get_default (kw : gmap string pyval) (key : string) (dflt : pyval)
  : pyval :=
  default dflt (kw !! key).

Definition CreateStep_init (kw : gmap string pyval) : outcome StepObject :=
  id ← getitem kw "id";
  type ← getitem kw "type";
  mret (CreateObject id type (get_default kw "args" (PList []))).

Definition CallStep_init (kw : gmap string pyval) : outcome StepObject :=
  target ← getitem kw "target";
  method ← getitem kw "method";
  mret (CallObject target method (get_default kw "args" (PList []))
          (get_default kw "result" PNone)).

Definition GetStep_init (kw : gmap string pyval) : outcome StepObject :=
  target ← getitem kw "target";
  field ← getitem kw "field";
  result ← getitem kw "result";
  mret (GetObject target field result).

(** [AssertExpr] called with the entries of [e] as keywords: the generated
    dataclass constructor takes exactly [op], [left] and [right]. *)
Definition AssertExpr_init (e : pyval) : outcome AssertExpr :=
  match e with
  | PDict d =>
      match d !! "op", d !! "left", d !! "right" with
      | Some o, Some l, Some r =>
          if bool_decide (size d = 3)
          then Return {| expr_op := o; left := l; right := r |}
          else Raise (TypeError "got an unexpected keyword argument")
      | _, _, _ =>
          if bool_decide (dom d ⊆ ({["op"; "left"; "right"]} : gset string))
          then Raise (TypeError "missing required positional arguments")
          else Raise (TypeError "got an unexpected keyword argument")
      end
  | _ => Raise (TypeError "argument after ** must be a mapping")
  end.

Definition AssertStep_init (kw : gmap string pyval) : outcome StepObject :=
  e ← getitem kw "expr";
  expr ← AssertExpr_init e;
  mret (AssertObject expr).

Definition ExpectFailStep_init (kw : gmap string pyval) : outcome StepObject :=
  step ← getitem kw "step";
  mret (ExpectFailObject step).

Definition STEP_CLASSES : gmap string (gmap string pyval → outcome StepObject) :=
  list_to_map [
    ("create", CreateStep_init);
    ("call", CallStep_init);
    ("get", GetStep_init);
    ("assert", AssertStep_init);
    ("expect_fail", ExpectFailStep_init)
  ].

(** The class called with the entries of [data] as keywords: they are the
    keyword arguments of [__init__], which takes [self] and collects every
    other keyword in [kw].  The instance is bound to [self] first, so an
    entry under the key ["self"] is a second value for that parameter: the
    call raises before the body of [__init__] runs.  Every other entry goes
    into [kw]. *)
Definition call_with_keywords (cls : gmap string pyval → outcome StepObject)
    (data : gmap string pyval) : outcome StepObject :=
  match data !! "self" with
  | Some _ => Raise (TypeError "got multiple values for argument 'self'")
  | None => cls data
  end.

(** [op not in STEP_CLASSES] hashes [op]; a key other than a string is never
    found among the five. *)
Definition parse_step (data : gmap string pyval) : outcome StepObject :=
  let op := get_default data "op" PNone in
  match op with
  | PList _ | PDict _ => Raise (unhashable op)
  | PStr s =>
      match STEP_CLASSES !! s with
      | Some cls => call_with_keywords cls data
      | None => Raise (DSLValidationError ("Unknown op '" +:+ s +:+ "'"))
      end
  | PNone | PBool _ | PInt _ =>
      Raise (DSLValidationError ("Unknown op '" +:+ py_str op +:+ "'"))
  end.

(** The keys each step class reads with [kw[key]], in the order in which
    its [__init__] reads them. *)
Definition required_keys (op : string) : list string :=
  if decide (op = "create") then ["id"; "type"]
  else if decide (op = "call") then ["target"; "method"]
  else if decide (op = "get") then ["target"; "field"; "result"]
  else if decide (op = "assert") then ["expr"]
  else if decide (op = "expect_fail") then ["step"]
  else [].

Definition recognized_ops : list string :=
  ["create"; "call"; "get"; "assert"; "expect_fail"].

(** The step a built object is when its attributes have their annotated
    types; the validator is stated on those. *)
Definition as_str (v : pyval) : option string :=
  match v with
  | PStr s => Some s
  | _ => None
  end.

Definition as_list (v : pyval) : option (list pyval) :=
  match v with
  | PList l => Some l
  | _ => None
  end.

Definition step_of_object (o : StepObject) : option Step :=
  match o with
  | CreateObject id type args =>
      id ← as_str id; type ← as_str type; args ← as_list args;
      Some (CreateStep id type args)
  | CallObject target method args result =>
      target ← as_str target; method ← as_str method; args ← as_list args;
      match result with
      | PNone => Some (CallStep target method args None)
      | PStr r => Some (CallStep target method args (Some r))
      | _ => None
      end
  | GetObject target field result =>
      target ← as_str target; field ← as_str field; result ← as_str result;
      Some (GetStep target field result)
  | AssertObject expr => Some (AssertStep expr)
  | ExpectFailObject step =>
      match step with
      | PInt n => Some (ExpectFailStep n)
      | _ => None
      end
  end.

(** ** The rest of the provider and of the parser *)

(** [sym and sym["kind"] in (...)]: [None] when the lookup finds nothing,
    else the truth value of the membership test. *)
Definition has_type (self : JsonASTProvider) (fqn : string) : option bool :=
  match symbols self !! fqn with
  | Some sym => Some (is_class_kind (sym_kind sym))
  | None => None
  end.

Definition sym_fqn (sym : Symbol) : string :=
  match sym with
  | SymClass c => class_fqn c
  | SymFunction m => meth_fqn m
  end.

(** The symbols of a class, of a file and of an index in the order in which
    the loops over the index meet them: each class followed by its methods,
    then the functions of the file. *)
Definition class_symbols (cls : Class) : list Symbol :=
  SymClass cls :: (SymFunction <$> class_methods cls).

Definition file_symbols (file : File) : list Symbol :=
  (classes file ≫= class_symbols) ++ (SymFunction <$> functions file).

Definition indexed_symbols (idx : AstIndex) : list Symbol :=
  idx.*2 ≫= file_symbols.

(** What [TestPlan(test=..., steps=...)] holds after parsing. *)
Record TestPlanObject := { plan_test : pyval; plan_steps : list StepObject }.

(** [parse_step(s)] on an element of the list of steps: [s.get] is the
    method of a dict only. *)
Definition parse_item (s : pyval) : outcome StepObject :=
  match s with
  | PDict d => parse_step d
  | _ => Raise (no_attribute s "get")
  end.

(** The list comprehension over the steps: the elements are parsed in
    order, and the first exception ends it. *)
Fixpoint parse_items (l : list pyval) : outcome (list StepObject) :=
  match l with
  | [] => Return []
  | s :: rest =>
      o ← parse_item s;
      os ← parse_items rest;
      Return (o :: os)
  end.

(** What [for s in v] yields: the elements of a list, the characters of a
    string, the keys of a dict; the other values are not iterable. *)
Definition iterate (v : pyval) : outcome (list pyval) :=
  match v with
  | PList l => Return l
  | PStr s => Return ((λ c, PStr (String c EmptyString)) <$> chars s)
  | PDict d => Return (PStr <$> (map_to_list d).*1)
  | PNone | PBool _ | PInt _ =>
      Raise (TypeError ("'" +:+ py_type_name v +:+ "' object is not iterable"))
  end.

Definition parse_test_plan (data : gmap string pyval) : outcome TestPlanObject :=
  match data !! "test", data !! "steps" with
  | Some t, Some v =>
      items ← iterate v;
      steps ← parse_items items;
      Return {| plan_test := t; plan_steps := steps |}
  | _, _ =>
      Raise (DSLValidationError "Test plan must contain 'test' and 'steps'")
  end.

(** The other failures of the taxonomy, by their messages. *)
Definition MalformedPlan : exn :=
  DSLValidationError "Test plan must contain 'test' and 'steps'".


Definition MethodNotFound (method obj_type : string) : exn :=
  DSLValidationError
    ("Method '" +:+ method +:+ "' not found in '" +:+ obj_type +:+ "'").

Definition TypeMismatch (where_ : string) (i : nat) (expected : string)
    (actual : option string) : exn :=
  DSLValidationError
    (where_ +:+ ": arg " +:+ pretty i +:+ " type mismatch: "
     +:+ "expected " +:+ expected +:+ ", got " +:+ str_or_None actual).

Definition UnknownReference (side : string) : exn :=
  DSLValidationError ("Unknown value reference '" +:+ side +:+ "'").

(** The variables a step binds when it validates. *)
Definition bound_names (step : Step) : list string :=
  match step with
  | CreateStep id _ _ => [id]
  | CallStep _ _ _ result => if truthy result then [default "" result] else []
  | _ => []
  end.

(** The steps that can validate: a Get step and a bare [Step] cannot. *)
Definition can_validate (step : Step) : Prop :=
  match step with
  | GetStep _ _ _ | PlainStep _ => False
  | _ => True
  end.

(** What a step description parses to when it parses: it has no entry named
    [self], and the object is that of its operation, built from the entries
    under the keys that [__init__] reads, with [[]] for absent [args] and
    [None] for an absent [result]. *)
Definition parsed_as (data : gmap string pyval) (o : StepObject) : Prop :=
  data !! "self" = None ∧
 ((data !! "op" = Some (PStr "create") ∧
   ∃ id type, data !! "id" = Some id ∧ data !! "type" = Some type ∧
     o = CreateObject id type (get_default data "args" (PList []))) ∨
  (data !! "op" = Some (PStr "call") ∧
   ∃ target method,
     data !! "target" = Some target ∧ data !! "method" = Some method ∧
     o = CallObject target method (get_default data "args" (PList []))
           (get_default data "result" PNone)) ∨
  (data !! "op" = Some (PStr "get") ∧
   ∃ target field result,
     data !! "target" = Some target ∧ data !! "field" = Some field ∧
     data !! "result" = Some result ∧ o = GetObject target field result) ∨
  (data !! "op" = Some (PStr "assert") ∧
   ∃ d op l r,
     data !! "expr" = Some (PDict d) ∧ dom d = {["op"; "left"; "right"]} ∧
     d !! "op" = Some op ∧ d !! "left" = Some l ∧ d !! "right" = Some r ∧
     o = AssertObject {| expr_op := op; left := l; right := r |}) ∨
  (data !! "op" = Some (PStr "expect_fail") ∧
   ∃ step, data !! "step" = Some step ∧ o = ExpectFailObject step)).

(** An operand of an assertion refers to a bound variable, or refers to
    none: only a string that starts with a dollar sign is a reference. *)
Definition operand_ok (side : pyval) (ctx : DSLContext) : Prop :=
  ∀ s, side = PStr s → startswith_dollar s = true →
       is_Some (variables ctx !! drop_first s).

(** A class with two overloads of one method; the second takes a string. *)
Definition Basket : Class := {|
  class_kind := "struct_decl"; class_name := "Basket"; class_fqn := "lib::Basket";
  class_methods := [
    {| meth_kind := "constructor"; meth_name := "Basket";
       meth_fqn := "lib::Basket::Basket"; meth_return_type := None;
       meth_params := [] |};
    {| meth_kind := "cxx_method"; meth_name := "put";
       meth_fqn := "lib::Basket::put"; meth_return_type := Some "void";
       meth_params := [{| param_name := "n"; param_type := "int" |}] |};
    {| meth_kind := "cxx_method"; meth_name := "put";
       meth_fqn := "lib::Basket::put"; meth_return_type := Some "void";
       meth_params := [{| param_name := "s"; param_type := "std::string" |}] |}
  ];
  class_fields := []
|}.

(** A class with three constructors, of an [int], of a string and of a
    string again, and a method between them. *)
Definition Crate : Class := {|
  class_kind := "class_decl"; class_name := "Crate"; class_fqn := "lib::Crate";
  class_methods := [
    {| meth_kind := "constructor"; meth_name := "Crate";
       meth_fqn := "lib::Crate::Crate"; meth_return_type := None;
       meth_params := [{| param_name := "size"; param_type := "int" |}] |};
    {| meth_kind := "cxx_method"; meth_name := "size";
       meth_fqn := "lib::Crate::size"; meth_return_type := Some "int";
       meth_params := [] |};
    {| meth_kind := "constructor"; meth_name := "Crate";
       meth_fqn := "lib::Crate::Crate"; meth_return_type := None;
       meth_params := [{| param_name := "label"; param_type := "std::string" |}] |};
    {| meth_kind := "constructor"; meth_name := "Crate";
       meth_fqn := "lib::Crate::Crate"; meth_return_type := None;
       meth_params := [{| param_name := "owner"; param_type := "std::string" |}] |}
  ];
  class_fields := []
|}.

Definition crate_provider : JsonASTProvider :=
  JsonASTProvider_init
    [("crate.hpp", {| classes := [Crate]; functions := [] |})].

Definition basket_provider : JsonASTProvider :=
  JsonASTProvider_init
    [("basket.hpp", {| classes := [Basket]; functions := [] |})].

End Dsl.

Module Search.

(** ** Floats as Python has them *)

(** [x / y] on floats raises on a zero divisor. *)
Definition truediv (x y : float) : outcome float :=
  if (y =? 0)%float
  then Raise (ZeroDivisionError "float division by zero")
  else Return (x / y)%float.

(** [math.sqrt(x)] raises on a negative argument. *)
Definition math_sqrt (x : float) : outcome float :=
  if (x <? 0)%float
  then Raise (ValueError "math domain error")
  else Return (PrimFloat.sqrt x).

(** [float(n)] of a natural number below [2^63]; exact below [2^53]. *)
Definition float_of_nat (n : nat) : float :=
  PrimFloat.of_uint63 (Uint63.of_Z (Z.of_nat n)).

(** [m / n] on two natural numbers below [2^53], with [n] positive: the
    float nearest to the quotient. *)
Definition int_truediv (m n : nat) : float :=
  (float_of_nat m / float_of_nat n)%float.

(** The integer nearest to [m * 2^e * 10^3], ties to even. *)
Definition scaled_half_even (m : positive) (e : Z) : Z :=
  let num := (Z.pos m * 1000 * 2 ^ Z.max e 0)%Z in
  let den := (2 ^ Z.max (- e) 0)%Z in
  let q := (num / den)%Z in
  let r := (num mod den)%Z in
  match (2 * r ?= den)%Z with
  | Lt => q
  | Gt => (q + 1)%Z
  | Eq => if Z.even q then q else (q + 1)%Z
  end.

(** The built-in [round(x, 3)] on a float: infinities and NaN round to
    themselves; a finite [x] is rounded, ties to even, to three decimals of
    its exact value, and the float nearest to that decimal is returned, with
    the sign of [x]. *)
Definition round3 (x : float) : float :=
  match Prim2SF x with
  | S754_finite s m e =>
      match scaled_half_even m e with
      | Z.pos n =>
          SF2Prim (SFdiv prec emax (S754_finite s n 0) (S754_finite false 1000 0))
      | _ => SF2Prim (S754_zero s)
      end
  | _ => x
  end.

(** [max(a, b)] of two floats: [b] when [b > a], else [a]. *)
Definition py_max (a b : float) : float :=
  if (a <? b)%float then b else a.

(** ** Strings *)

Definition ascii_lower (c : ascii) : ascii :=
  let n := nat_of_ascii c in
  if (65 <=? n)%nat && (n <=? 90)%nat then ascii_of_nat (n + 32) else c.

(** [s.lower()] *)
Fixpoint lower (s : string) : string :=
  match s with
  | EmptyString => EmptyString
  | String c s' => String (ascii_lower c) (lower s')
  end.

Fixpoint is_prefix (t s : string) : bool :=
  match t, s with
  | EmptyString, _ => true
  | String a t', String b s' => Ascii.eqb a b && is_prefix t' s'
  | String _ _, EmptyString => false
  end.

(** [t in s] on strings *)
Fixpoint is_substring (t s : string) : bool :=
  is_prefix t s ||
  match s with
  | EmptyString => false
  | String _ s' => is_substring t s'
  end.

(** The character classes of the token pattern. *)
Definition is_word_start (c : ascii) : bool :=
  let n := nat_of_ascii c in
  (65 <=? n)%nat && (n <=? 90)%nat || (97 <=? n)%nat && (n <=? 122)%nat
  || (n =? 95)%nat.

Definition is_word_char (c : ascii) : bool :=
  is_word_start c || ascii_isdigit c.

(** [re.findall] of the token pattern, scanning from the left; [cur] is the
    match in progress, if any. *)
Fixpoint findall_words (cur : option string) (s : string) : list string :=
  match s with
  | EmptyString =>
      match cur with
      | Some w => [w]
      | None => []
      end
  | String c s' =>
      match cur with
      | Some w =>
          if is_word_char c
          then findall_words (Some (w +:+ String c EmptyString)) s'
          else w :: findall_words None s'
      | None =>
          if is_word_start c
          then findall_words (Some (String c EmptyString)) s'
          else findall_words None s'
      end
  end.

Definition tokenize_query (text : string) : list string :=
  lower <$> findall_words None text.

(** ** The stores *)

Record EmbeddingRecord := {
  emb_id : string;
  emb_kind : string;
  emb_fqn : string;
  emb_file : string;
  embedding : list float
}.

Record CodebaseContext := {
  ast_index : AstIndex;
  embeddings : list EmbeddingRecord
}.

(** The keys of a symbol dict the search reads. *)
Record SymbolView := { sv_name : string; sv_fqn : string; sv_kind : string }.

Definition view_class (c : Class) : SymbolView :=
  {| sv_name := class_name c; sv_fqn := class_fqn c; sv_kind := class_kind c |}.

Definition view_method (m : Method) : SymbolView :=
  {| sv_name := meth_name m; sv_fqn := meth_fqn m; sv_kind := meth_kind m |}.

(** The order in which the nested loops over the index meet the symbols:
    per file, each class followed by its methods, then the functions. *)
Definition walk_symbols (idx : AstIndex) : list SymbolView :=
  idx.*2 ≫= λ file,
    (classes file ≫= λ cls, view_class cls :: (view_method <$> class_methods cls))
    ++ (view_method <$> functions file).

(** ** Scoring *)

Definition accumulate (acc : float * float * float) (xy : float * float)
  : float * float * float :=
  let '(dot, na, nb) := acc in
  let '(x, y) := xy in
  (dot + x * y, na + x * x, nb + y * y)%float.

Definition cosine_similarity (a b : list float) : outcome float :=
  let '(dot, na, nb) := fold_left accumulate (zip a b) (0, 0, 0)%float in
  if (na =? 0)%float || (nb =? 0)%float
  then Return 0%float
  else root ← math_sqrt (na * nb)%float; truediv dot root.

Definition name_match_score (symbol : SymbolView) (tokens : list string)
  : float :=
  let haystack := lower (sv_name symbol +:+ " " +:+ sv_fqn symbol) in
  let matches := length (filter (λ t, is_substring t haystack = true) tokens) in
  if (matches =? 0)%nat then 0%float
  else int_truediv matches (length tokens).

(** ** Lists and dicts *)

(** [l.sort(key=..., reverse=True)] on keys that [<] orders, which it does
    when none of them is NaN: the sort is stable and compares with [<] only,
    and there is then one list it can return, the elements in descending
    key order with equal keys in the order they had.  [insert_desc] puts
    [x], which stood before every element of [l], after the elements of
    greater key.  With a NaN among the keys the list that Python's merge
    sort returns depends on the comparisons it happens to make, and is not
    modelled: what is stated of the order of a result, or of which elements
    a slice of it keeps, is stated for keys without NaN. *)
Fixpoint insert_desc {A} (key : A → float) (x : A) (l : list A) : list A :=
  match l with
  | [] => [x]
  | y :: l' =>
      if (key x <? key y)%float then y :: insert_desc key x l'
      else x :: y :: l'
  end.

Definition sort_desc {A} (key : A → float) (l : list A) : list A :=
  foldr (insert_desc key) [] l.

(** [l[:k]]: a negative [k] counts from the end. *)
Definition slice_to {A} (k : Z) (l : list A) : list A :=
  if (0 <=? k)%Z then take (Z.to_nat k) l
  else take (Z.to_nat (Z.of_nat (length l) + k)) l.

(** A dict in insertion order, keyed by strings. *)
Definition odict (V : Type) : Type := list (string * V).

(** [d.get(k)] *)
Fixpoint od_lookup {V} (k : string) (d : odict V) : option V :=
  match d with
  | [] => None
  | (k', v) :: d' => if decide (k' = k) then Some v else od_lookup k d'
  end.

(** [d.setdefault(k, v)] *)
Definition od_setdefault {V} (k : string) (v : V) (d : odict V) : odict V :=
  match od_lookup k d with
  | Some _ => d
  | None => d ++ [(k, v)]
  end.

(** The entry under [k], which is present, is replaced by [f] of it. *)
Definition od_alter {V} (f : V → V) (k : string) (d : odict V) : odict V :=
  (λ kv, if decide (kv.1 = k) then (kv.1, f kv.2) else kv) <$> d.

(** [d[k] = v] *)
Definition od_set {V} (k : string) (v : V) (d : odict V) : odict V :=
  match od_lookup k d with
  | Some _ => od_alter (λ _, v) k d
  | None => d ++ [(k, v)]
  end.

(** ** The search service *)

Record Scored := {
  sc_id : string;
  sc_kind : string;
  sc_fqn : string;
  sc_file : string;
  sc_score : float
}.

Fixpoint score_all (query_embedding : list float) (items : list EmbeddingRecord)
  : outcome (list Scored) :=
  match items with
  | [] => Return []
  | item :: rest =>
      score ← cosine_similarity query_embedding (embedding item);
      scored ← score_all query_embedding rest;
      Return ({| sc_id := emb_id item; sc_kind := emb_kind item;
                 sc_fqn := emb_fqn item; sc_file := emb_file item;
                 sc_score := score |} :: scored)
  end.

(** [query_embedding] is what the embedding provider answered for the query. *)
Definition raw_semantic_search (self : CodebaseContext)
    (query_embedding : list float) (top_k : Z) : outcome (list Scored) :=
  scored ← score_all query_embedding (embeddings self);
  Return (slice_to top_k (sort_desc sc_score scored)).

(** An entry of [results]. *)
Record Entry := {
  e_fqn : string;
  e_kind : string;
  semantic : float;
  name : float
}.

Definition set_name (v : float) (r : Entry) : Entry :=
  {| e_fqn := e_fqn r; e_kind := e_kind r; semantic := semantic r; name := v |}.

Definition set_semantic (v : float) (r : Entry) : Entry :=
  {| e_fqn := e_fqn r; e_kind := e_kind r; semantic := v; name := name r |}.

(** The body the three name-based loops share. *)
Definition add_name_score (tokens : list string) (results : odict Entry)
    (symbol : SymbolView) : odict Entry :=
  let score := name_match_score symbol tokens in
  if (0 <? score)%float then
    let results :=
      od_setdefault (sv_fqn symbol)
        {| e_fqn := sv_fqn symbol; e_kind := sv_kind symbol;
           semantic := 0; name := 0 |} results in
    od_alter (λ r, set_name (py_max (name r) score) r) (sv_fqn symbol) results
  else results.

(** The body of the loop that merges the semantic scores. *)
Definition add_semantic_score (results : odict Entry) (hit : string * float)
  : odict Entry :=
  let '(fqn, sem_score) := hit in
  let results :=
    od_setdefault fqn
      {| e_fqn := fqn; e_kind := "unknown"; semantic := 0; name := 0 |}
      results in
  od_alter (set_semantic sem_score) fqn results.

Record Hit := {
  fqn : string;
  kind : string;
  score : float;
  sources : list string
}.

Definition fused (r : Entry) : float :=
  (0.7 * semantic r + 0.3 * name r)%float.

Definition sources_of (r : Entry) : list string :=
  (if (0 <? semantic r)%float then ["semantic"] else [])
  ++ (if (0 <? name r)%float then ["name"] else []).

(** The body of the final loop: the hit of one entry, if it is kept. *)
Definition final_hit (r : Entry) : option Hit :=
  if (fused r =? 0)%float then None
  else Some {| fqn := e_fqn r; kind := e_kind r; score := round3 (fused r);
               sources := sources_of r |}.

Definition semantic_map_of (semantic_hits : list Scored) : odict float :=
  fold_left (λ d hit, od_set (sc_fqn hit) (sc_score hit) d) semantic_hits [].

Definition fuse (self : CodebaseContext) (tokens : list string)
    (semantic_map : odict float) : odict Entry :=
  fold_left add_semantic_score semantic_map
    (fold_left (add_name_score tokens) (walk_symbols (ast_index self)) []).

Definition semantic_search (self : CodebaseContext)
    (query_embedding : list float) (query : string) (top_k : Z)
  : outcome (list Hit) :=
  let tokens := tokenize_query query in
  semantic_hits ← raw_semantic_search self query_embedding (top_k * 2);
  let semantic_map := semantic_map_of semantic_hits in
  let results := fuse self tokens semantic_map in
  let final := omap (λ kv, final_hit kv.2) results in
  Return (slice_to top_k (sort_desc score final)).

(** ** Vocabulary of the channels *)

(** The semantic score of an FQN: its entry in [semantic_map], else 0. *)
Definition semantic_score (semantic_map : odict float) (f : string) : float :=
  default 0%float (od_lookup f semantic_map).

(** The best name score, from 0, over a run of symbols: only the symbols
    named [f] that score above 0 count. *)
Definition best_name_score (tokens : list string) (f : string)
    (symbols : list SymbolView) : float :=
  fold_left
    (λ acc symbol,
       if decide (sv_fqn symbol = f) then
         if (0 <? name_match_score symbol tokens)%float
         then py_max acc (name_match_score symbol tokens)
         else acc
       else acc)
    symbols 0%float.

(** The lexical score of an FQN over the whole index. *)
Definition lexical_score (tokens : list string) (idx : AstIndex) (f : string)
  : float :=
  best_name_score tokens f (walk_symbols idx).

(** The semantic score the merge loop leaves under [k]: the last one it
    met, from 0. *)
Definition last_semantic (k : string) (pairs : list (string * float)) : float :=
  fold_left (λ acc kv, if decide (kv.1 = k) then kv.2 else acc) pairs 0%float.

(** A table of [results] whose keys are distinct, whose [name] column is
    [L] and whose [semantic] column is [S]; both are 0 where no entry is. *)
Definition table_of (L S : string → float) (T : odict Entry) : Prop :=
  NoDup T.*1 ∧
  ∀ k, match od_lookup k T with
       | Some r => e_fqn r = k ∧ semantic r = S k ∧ name r = L k
       | None => L k = 0%float ∧ S k = 0%float
       end.

(** No element scores less than the one after it. *)
Definition descending {A} (key : A → float) (l : list A) : Prop :=
  Sorted (λ x y, (key x <? key y)%float = false) l.

(** Non-increasing order: each element scores at most what the one before
    it scores. *)
Definition non_increasing {A} (key : A → float) (l : list A) : Prop :=
  Sorted (λ x y, (key y <=? key x)%float = true) l.

(** The cosine of the query embedding with a vector of the store is not
    NaN, for every vector for which it is computed. *)
Definition cosines_are_numbers (self : CodebaseContext)
    (query_embedding : list float) : Prop :=
  Forall (λ item, ∀ v,
            cosine_similarity query_embedding (embedding item) = Return v →
            is_nan v = false)
    (embeddings self).

(** ** A small store *)

Definition box_context : CodebaseContext := {|
  ast_index :=
    [("fruit.hpp", {| classes := [Dsl.Fruit; Dsl.BoxOfFruits]; functions := [] |})];
  embeddings := [
    {| emb_id := "1"; emb_kind := "class_decl"; emb_fqn := "lib::Fruit";
       emb_file := "fruit.hpp"; embedding := [0; 1]%float |};
    {| emb_id := "2"; emb_kind := "class_decl"; emb_fqn := "lib::BoxOfFruits";
       emb_file := "fruit.hpp"; embedding := [1; 0]%float |}
  ]
|}.

(** The same library with a vector for two of the methods as well. *)
Definition orchard_context : CodebaseContext := {|
  ast_index := ast_index box_context;
  embeddings := embeddings box_context ++ [
    {| emb_id := "3"; emb_kind := "cxx_method";
       emb_fqn := "lib::BoxOfFruits::add";
       emb_file := "fruit.hpp"; embedding := [1; 1]%float |};
    {| emb_id := "4"; emb_kind := "cxx_method";
       emb_fqn := "lib::BoxOfFruits::count";
       emb_file := "fruit.hpp"; embedding := [-1; 0]%float |}
  ]
|}.

(** ** The companion queries *)

(** A loop that returns at the first element on which its body returns. *)
Fixpoint first_match {A B} (f : A → option B) (l : list A) : option B :=
  match l with
  | [] => None
  | x :: l' =>
      match f x with
      | Some b => Some b
      | None => first_match f l'
      end
  end.

(** The body of the three loops of [search_by_name]. *)
Definition add_name_match (fragment : string) (results : odict (string * string))
    (symbol : SymbolView) : odict (string * string) :=
  if is_substring (lower fragment) (lower (sv_name symbol))
  then od_setdefault (sv_fqn symbol) (sv_fqn symbol, sv_kind symbol) results
  else results.

(** The dict maps an FQN to its [fqn] and [kind]. *)
Definition search_by_name (self : CodebaseContext) (fragment : string)
  : odict (string * string) :=
  fold_left (add_name_match fragment) (walk_symbols (ast_index self)) [].

Definition get_symbol_in_class (fqn : string) (cls : Class) : option Symbol :=
  if decide (fqn = class_fqn cls) then Some (SymClass cls)
  else first_match
         (λ m, if decide (fqn = meth_fqn m) then Some (SymFunction m) else None)
         (class_methods cls).

Definition get_symbol_in_file (fqn : string) (file : File) : option Symbol :=
  match first_match (get_symbol_in_class fqn) (classes file) with
  | Some sym => Some sym
  | None =>
      first_match
        (λ fn, if decide (fqn = meth_fqn fn) then Some (SymFunction fn) else None)
        (functions file)
  end.

(** [None] is what falling off the end of the function returns. *)
Definition get_symbol (self : CodebaseContext) (fqn : string) : option Symbol :=
  first_match (get_symbol_in_file fqn) (ast_index self).*2.


(** A filter dict at its two keys; a filter that is [None] or has neither
    key keeps every result, as the empty dict does. *)
Record Filter := {
  kinds : option (list string);
  namespace_prefix : option string
}.

Definition passes (flt : Filter) (r : Hit) : bool :=
  match kinds flt with
  | Some ks => bool_decide (kind r ∈ ks)
  | None => true
  end
  &&
  match namespace_prefix flt with
  | Some p => is_prefix (p +:+ "::") (fqn r)
  | None => true
  end.

Definition apply_filters (results : list Hit) (flt : option Filter) : list Hit :=
  match flt with
  | None => results
  | Some f => filter (λ r, passes f r = true) results
  end.

(** A scored record is an embedding record with its cosine score. *)
Definition scored_of (query_embedding : list float) (item : EmbeddingRecord)
    (sc : Scored) : Prop :=
  cosine_similarity query_embedding (embedding item) = Return (sc_score sc) ∧
  sc_id sc = emb_id item ∧ sc_kind sc = emb_kind item ∧
  sc_fqn sc = emb_fqn item ∧ sc_file sc = emb_file item.

(** A match of the token pattern: it starts with a letter or an underscore
    and goes on with letters, digits and underscores. *)
Definition is_word (w : string) : Prop :=
  match w with
  | EmptyString => False
  | String c _ =>
      is_word_start c = true ∧ Forall (λ c, is_word_char c = true) (chars w)
  end.

(** The lowercase of the fragment occurs in the lowercase of the name. *)
Definition name_matches (fragment : string) (symbol : SymbolView) : bool :=
  is_substring (lower fragment) (lower (sv_name symbol)).

(** Lowercase letters, digits and the underscore. *)
Definition is_token_char (c : ascii) : bool :=
  let n := nat_of_ascii c in
  (97 <=? n)%nat && (n <=? 122)%nat || (n =? 95)%nat || ascii_isdigit c.

(** A token of a query: not empty, of lowercase letters, digits and
    underscores, and not starting with a digit. *)
Definition well_formed_token (t : string) : Prop :=
  match t with
  | EmptyString => False
  | String c _ =>
      ascii_isdigit c = false ∧ Forall (λ c, is_token_char c = true) (chars t)
  end.

End Search.

Import Dsl.

(** * Properties of the validator *)

(** ** Unfolding the monad *)

Ltac unfold_M :=
  unfold mbind, M_bind, mret, M_ret, raise, reading, assign_variable,
    try_except in *.

Section validator_state.
Implicit Types (ctx : DSLContext) (e : exn).

(** Every step validator either leaves the context as it found it, or
    returns normally after one assignment to [ctx.variables]. *)
Lemma try_constructors_state ctors id type args ctx :
  untouched_or_assigned (try_constructors ctors id type args ctx) ctx.
Proof.
  induction ctors as [|ctor rest IH]; simpl.
  - by left.
  - unfold_M.
    destruct (check_args _ _ _ _) as [[]|[]]; simpl; eauto; try by left.
    right. by exists tt, id, (Some type).
Qed.

Lemma validate_create_state id type args ctx :
  untouched_or_assigned (validate_create id type args ctx) ctx.
Proof.
  unfold validate_create. unfold_M.
  destruct (get_constructors _ _); [apply try_constructors_state | by left].
Qed.

Lemma validate_call_state target method args result ctx :
  untouched_or_assigned (validate_call target method args result ctx) ctx.
Proof.
  unfold validate_call. unfold_M.
  destruct (truthy (mjoin _)); simpl; [|by left].
  destruct (find_method _ _ _); [|by left].
  destruct (check_args _ _ _ _) as [[]|]; [|by left].
  destruct (truthy result); [|by left].
  right. by eexists tt, _, _.
Qed.

Lemma validate_get_state target field result ctx :
  (validate_get target field result ctx).2 = ctx.
Proof.
  unfold validate_get.
  destruct (variables ctx !! target) as [ty|]; [|done].
  destruct (ty ≫= get_class (ast ctx)); [|done].
  by destruct (negb _).
Qed.

Lemma validate_assert_state expr ctx :
  (validate_assert expr ctx).2 = ctx.
Proof.
  unfold validate_assert. unfold_M.
  destruct (check_side (left expr) ctx); done.
Qed.

Lemma validate_expect_fail_state n ctx :
  (validate_expect_fail n ctx).2 = ctx.
Proof. unfold validate_expect_fail. unfold_M. by destruct (n <? 0)%Z. Qed.

Lemma validate_step_state step ctx :
  untouched_or_assigned (validate_step step ctx) ctx.
Proof.
  destruct step; simpl.
  - apply validate_create_state.
  - apply validate_call_state.
  - left. apply validate_get_state.
  - left. apply validate_assert_state.
  - left. apply validate_expect_fail_state.
  - by left.
Qed.

(** A step that raises has not touched the context. *)
Lemma validate_step_raise step ctx e ctx' :
  validate_step step ctx = (Raise e, ctx') → ctx' = ctx.
Proof.
  intros Hr. destruct (validate_step_state step ctx) as [H|(a & k & t & H)].
  - by rewrite Hr in H.
  - congruence.
Qed.

Lemma set_variable_dom k t ctx :
  dom (variables ctx) ⊆ dom (variables (set_variable k t ctx)).
Proof. simpl. rewrite dom_insert_L. set_solver. Qed.

Lemma validate_step_dom step ctx :
  dom (variables ctx) ⊆ dom (variables (validate_step step ctx).2).
Proof.
  destruct (validate_step_state step ctx) as [->|(a & k & t & ->)]; [done|].
  apply set_variable_dom.
Qed.
End validator_state.

(** ** Runs of [validate_plan] *)

Section validator_runs.
Implicit Types (ctx : DSLContext) (e : exn) (l pre post : list Step).

Lemma validate_steps_cons idx step l ctx :
  validate_steps idx (step :: l) ctx =
    match validate_step step ctx with
    | (Return _, ctx1) => validate_steps (S idx) l ctx1
    | (Raise e, ctx1) => (Raise (annotate idx step e), ctx1)
    end.
Proof.
  simpl. unfold_M. unfold annotate, annotated.
  by destruct (validate_step step ctx) as [[[]|[]] ctx1].
Qed.

Lemma validate_steps_app idx pre post ctx :
  validate_steps idx (pre ++ post) ctx =
    match validate_steps idx pre ctx with
    | (Return _, ctx1) => validate_steps (idx + length pre) post ctx1
    | (Raise e, ctx1) => (Raise e, ctx1)
    end.
Proof.
  revert idx ctx. induction pre as [|step pre IH]; intros idx ctx.
  - simpl. unfold_M. by rewrite Nat.add_0_r.
  - rewrite <- app_comm_cons, !validate_steps_cons.
    destruct (validate_step step ctx) as [[[]|] ctx1]; [|done].
    rewrite IH. simpl. by rewrite Nat.add_succ_r.
Qed.



Lemma validate_steps_dom idx l ctx :
  dom (variables ctx) ⊆ dom (variables (validate_steps idx l ctx).2).
Proof.
  revert idx ctx. induction l as [|step l IH]; intros idx ctx; [done|].
  rewrite validate_steps_cons.
  pose proof (validate_step_dom step ctx) as Hd.
  destruct (validate_step step ctx) as [[[]|[]] ctx1]; simpl in *; try done.
  etrans; [exact Hd | apply IH].
Qed.

End validator_runs.


(** C9: a run starts from the empty environment, and the domain of the
    environment after [k + 1] steps contains the domain after [k] steps. *)
Theorem environment_grows (plan : TestPlan) (a : JsonASTProvider) :
  env_after 0 plan a = ∅ ∧
  ∀ k, dom (env_after k plan a) ⊆ dom (env_after (S k) plan a).
Proof.
  split; [done|]. intros k. unfold env_after.
  destruct (decide (k < length (steps plan))) as [Hk|Hk].
  - destruct (lookup_lt_is_Some_2 _ _ Hk) as [step Hstep].
    rewrite (take_S_r _ _ _ Hstep), validate_steps_app.
    destruct (validate_steps 0 (take k (steps plan)) _) as [[[]|e] ctx1];
      [|done].
    apply validate_steps_dom.
  - by rewrite !take_ge by lia.
Qed.

(** C10: a step whose validation raises leaves the context, and so the
    environment, exactly as it found it; a run that stops at this step ends
    in the context the steps before it built. *)
Theorem failing_step_keeps_environment (step : Step) (ctx ctx' : DSLContext)
    (e : exn) :
  validate_step step ctx = (Raise e, ctx') →
  ctx' = ctx ∧
  ∀ idx pre post ctx0,
    validate_steps idx pre ctx0 = (Return tt, ctx) →
    validate_steps idx (pre ++ step :: post) ctx0
      = (Raise (annotate (idx + length pre) step e), ctx).
Proof.
  intros Hstep. pose proof (validate_step_raise _ _ _ _ Hstep) as ->.
  split; [done|]. intros idx pre post ctx0 Hpre.
  by rewrite validate_steps_app, Hpre, validate_steps_cons, Hstep.
Qed.

(** ** Argument tokens *)

Section tokens.
Implicit Types (s p q : string) (c : ascii) (ctx : DSLContext).

Lemma ascii_isdigit_spec c : ascii_isdigit c = bool_decide (c ∈ digit_chars).
Proof. by destruct c as [[] [] [] [] [] [] [] []]; vm_compute. Qed.

Lemma all_digits_spec s :
  all_digits s = true ↔ Forall (λ c, c ∈ digit_chars) (chars s).
Proof.
  induction s as [|c s IH]; simpl.
  - split; [constructor | done].
  - rewrite andb_true_iff, Forall_cons, IH, ascii_isdigit_spec, bool_decide_eq_true.
    done.
Qed.

Lemma isdigit_spec s : isdigit s = true ↔ composed_of_digits s.
Proof.
  unfold composed_of_digits. rewrite <- all_digits_spec.
  destruct s; simpl; [naive_solver | ].
  split; [by intros ? | by intros [_ ?]].
Qed.

Lemma chars_app p q : chars (p +:+ q) = chars p ++ chars q.
Proof. induction p as [|c p IH]; simpl; by rewrite ?IH. Qed.

Lemma all_digits_app p q :
  all_digits (p +:+ q) = all_digits p && all_digits q.
Proof. induction p as [|c p IH]; simpl; [done|]. by rewrite IH, andb_assoc. Qed.

Lemma replace_dot_once_point p q :
  all_digits p = true → replace_dot_once (p +:+ "." +:+ q) = p +:+ q.
Proof.
  induction p as [|c p IH]; simpl; [done|].
  intros [Hc Hp]%andb_true_iff. rewrite IH by done.
  destruct (Ascii.eqb_spec c "."); [by subst | done].
Qed.

Lemma replace_dot_once_digits s :
  all_digits (replace_dot_once s) = true →
  all_digits s = true ∨
  ∃ p q, s = p +:+ "." +:+ q ∧ all_digits p = true ∧ all_digits q = true.
Proof.
  induction s as [|c s IH]; simpl; [by left|].
  destruct (Ascii.eqb_spec c ".") as [->|Hc].
  - intros Hs. right. by exists "", s.
  - simpl. intros [Hd Hs]%andb_true_iff.
    destruct (IH Hs) as [Hall|(p & q & -> & Hp & Hq)].
    + left. by rewrite Hd.
    + right. exists (String c p), q. simpl. by rewrite Hd.
Qed.

(** The test the code makes for a double, on a token that is not all digits,
    is the test for an unsigned numeral with one decimal point. *)
Lemma replace_dot_once_isdigit s :
  isdigit s = false → (isdigit (replace_dot_once s) = true ↔ point_numeral s).
Proof.
  intros Hs. split.
  - intros Hr.
    assert (all_digits (replace_dot_once s) = true) as Hall
      by (by destruct (replace_dot_once s)).
    destruct (replace_dot_once_digits _ Hall) as [Hd|(p & q & -> & Hp & Hq)].
    + destruct s; simpl in *; congruence.
    + exists p, q. rewrite <- !all_digits_spec. split_and!; try done.
      rewrite replace_dot_once_point in Hr by done.
      destruct p, q; simpl in *; naive_solver.
  - intros (p & q & -> & Hp%all_digits_spec & Hq%all_digits_spec & Hne).
    rewrite replace_dot_once_point by done.
    assert (all_digits (p +:+ q) = true) as Hall
      by (by rewrite all_digits_app, Hp, Hq).
    destruct p, q; simpl in *; naive_solver.
Qed.

End tokens.

(** C5 (as amended): on a token of ASCII characters inference never raises;
    it yields the bound type of a bound variable, and on an unbound token
    ["int"] when the token is composed of digits, else ["double"] when it is
    an unsigned numeral with one decimal point, else ["bool"] for ["true"]
    and ["false"], else the string type.  (The digits of an ASCII token are
    ["0"] to ["9"]; [str.isdigit] knows more digits outside ASCII, and the
    statement is not made for tokens with such characters.) *)
Theorem infer_arg_type_token (s : string) (ctx : DSLContext) :
  ascii_string s →
  (∃ t, infer_arg_type (PStr s) ctx = Return t) ∧
  (∀ t, variables ctx !! s = Some t → infer_arg_type (PStr s) ctx = Return t) ∧
  (variables ctx !! s = None →
    (composed_of_digits s →
       infer_arg_type (PStr s) ctx = Return (Some "int")) ∧
    (¬ composed_of_digits s → point_numeral s →
       infer_arg_type (PStr s) ctx = Return (Some "double")) ∧
    (¬ composed_of_digits s → ¬ point_numeral s → s = "true" ∨ s = "false" →
       infer_arg_type (PStr s) ctx = Return (Some "bool")) ∧
    (¬ composed_of_digits s → ¬ point_numeral s → s ≠ "true" → s ≠ "false" →
       infer_arg_type (PStr s) ctx = Return (Some "std::string"))).
Proof.
  intros _. simpl. split_and!.
  - destruct (variables ctx !! s); [by eauto|].
    repeat case_match; eauto.
  - by intros t ->.
  - intros ->. rewrite <- isdigit_spec.
    destruct (isdigit s) eqn:Hd.
    + split_and!; [done | by intros [] ..].
    + rewrite <- (replace_dot_once_isdigit s Hd).
      destruct (isdigit (replace_dot_once s)); [split_and!; by try intros ? [] |].
      split_and!; try done.
      * intros _ _ [-> | ->]; by vm_compute.
      * intros _ _ Ht Hf. by rewrite !bool_decide_eq_false_2.
Qed.

(** The four kinds of unbound token, and a bound one. *)
Lemma infer_arg_type_token_witness :
  let ctx := set_variable "box" (Some "lib::BoxOfFruits")
               (DSLContext_init fruit_provider) in
  infer_arg_type (PStr "42") ctx = Return (Some "int") ∧
  infer_arg_type (PStr "1.5") ctx = Return (Some "double") ∧
  infer_arg_type (PStr "true") ctx = Return (Some "bool") ∧
  infer_arg_type (PStr "1.5.0") ctx = Return (Some "std::string") ∧
  infer_arg_type (PStr "box") ctx = Return (Some "lib::BoxOfFruits").
Proof.
  intros ctx.
  assert (∀ s, forallb (λ c, nat_of_ascii c <? 128)%nat (chars s) = true →
               ascii_string s) as Hascii.
  { intros s Hs. apply Forall_forall. intros c Hc.
    apply Nat.ltb_lt. apply list_elem_of_In in Hc.
    by apply (proj1 (forallb_forall _ _) Hs). }
  assert (∀ s, isdigit s = false → isdigit (replace_dot_once s) = false →
               ¬ composed_of_digits s ∧ ¬ point_numeral s) as Hno.
  { intros s Hd Hr. split.
    - rewrite <- isdigit_spec. by rewrite Hd.
    - rewrite <- (replace_dot_once_isdigit s Hd). by rewrite Hr. }
  split_and!.
  - destruct (infer_arg_type_token "42" ctx) as (_ & _ & H);
      [by apply Hascii|].
    apply (H eq_refl). by apply isdigit_spec.
  - destruct (infer_arg_type_token "1.5" ctx) as (_ & _ & H);
      [by apply Hascii|].
    apply (H eq_refl).
    + rewrite <- isdigit_spec. by vm_compute.
    + by apply (replace_dot_once_isdigit "1.5").
  - destruct (infer_arg_type_token "true" ctx) as (_ & _ & H);
      [by apply Hascii|].
    destruct (Hno "true") as [? ?]; [done..|].
    apply (H eq_refl); auto.
  - destruct (infer_arg_type_token "1.5.0" ctx) as (_ & _ & H);
      [by apply Hascii|].
    destruct (Hno "1.5.0") as [? ?]; [done..|].
    by apply (H eq_refl).
  - destruct (infer_arg_type_token "box" ctx) as (_ & H & _);
      [by apply Hascii|].
    by apply H.
Defined.

(** The unbound token ["-1.5"] is not composed of digits and is a decimal
    number, yet its inferred type is the string type, not ["double"]. *)
Lemma signed_numeral_is_string :
  parses_as_decimal "-1.5" = true ∧
  variables (DSLContext_init fruit_provider) !! "-1.5" = None ∧
  isdigit "-1.5" = false ∧
  infer_arg_type (PStr "-1.5") (DSLContext_init fruit_provider)
    = Return (Some "std::string").
Proof. by vm_compute. Qed.

(** An argument that is not a string, as a JSON number is, has no
    [isdigit]: inference raises [AttributeError]. *)
Example infer_arg_type_number :
  infer_arg_type (PInt 2) (DSLContext_init fruit_provider)
    = Raise (AttributeError "'int' object has no attribute 'isdigit'").
Proof. reflexivity. Qed.

(** ** Constructor resolution *)

Section constructors.
Implicit Types (ctx : DSLContext) (args : list pyval) (ctor : Method).

Lemma infer_arg_type_total arg ctx :
  is_token arg → ∃ t, infer_arg_type arg ctx = Return t.
Proof.
  intros [s ->]. simpl. destruct (variables ctx !! s); [by eauto|].
  repeat case_match; eauto.
Qed.

Lemma check_each_tokens i params args ctx where_ :
  length params = length args → Forall is_token args →
  let matching :=
    Forall2 (λ param arg,
      infer_arg_type arg ctx = Return (Some (param_type param))) params args in
  (matching ∧ check_each i (zip params args) ctx where_ = Return tt) ∨
  (¬ matching ∧
   ∃ msg, check_each i (zip params args) ctx where_ = Raise (DSLValidationError msg)).
Proof.
  revert i args. induction params as [|param params IH];
    intros i [|arg args] Hlen Htok; simplify_eq/=.
  - left. by split; [constructor|].
  - apply Forall_cons in Htok as [Harg Htok].
    destruct (infer_arg_type_total arg ctx Harg) as [t Ht]. rewrite Ht.
    unfold is_type_compatible. case_bool_decide as Hc; simpl.
    + subst t. destruct (IH (S i) args) as [[Hm ->]|[Hm [msg ->]]]; try done.
      * left. split; [by constructor | done].
      * right. split; [|by eauto]. by intros [_ ?]%Forall2_cons.
    + right. split; [|by eauto]. intros [Hh _]%Forall2_cons. congruence.
Qed.

(** On tokens, [check_args] returns when the constructor accepts them and
    raises a validation error when it does not. *)
Lemma check_args_tokens ctor args ctx where_ :
  Forall is_token args →
  (accepts ctor args ctx ∧
   check_args (meth_params ctor) args ctx where_ = Return tt) ∨
  (¬ accepts ctor args ctx ∧
   ∃ msg, check_args (meth_params ctor) args ctx where_
            = Raise (DSLValidationError msg)).
Proof.
  intros Htok. unfold check_args, accepts.
  destruct (Nat.eqb_spec (length (meth_params ctor)) (length args)) as [Hlen|Hlen];
    simpl.
  - destruct (check_each_tokens 0 _ _ ctx where_ Hlen Htok) as [[? ?]|[? ?]];
      [left | right]; naive_solver.
  - right. split; [naive_solver | by eauto].
Qed.

Lemma try_constructors_first pre ctor post id type args ctx :
  Forall is_token args →
  Forall (λ c, ¬ accepts c args ctx) pre → accepts ctor args ctx →
  try_constructors (pre ++ ctor :: post) id type args ctx
    = (Return tt, set_variable id (Some type) ctx).
Proof.
  intros Htok Hpre Hok. induction Hpre as [|c pre Hc Hpre IH]; simpl; unfold_M.
  - destruct (check_args_tokens ctor args ctx ("constructor " +:+ type) Htok)
      as [[_ ->]|[? _]]; done.
  - destruct (check_args_tokens c args ctx ("constructor " +:+ type) Htok)
      as [[? _]|[_ [msg ->]]]; done.
Qed.

Lemma try_constructors_none ctors id type args ctx :
  Forall is_token args →
  Forall (λ c, ¬ accepts c args ctx) ctors →
  try_constructors ctors id type args ctx = (Raise (NoMatchingConstructor type), ctx).
Proof.
  intros Htok Hall. induction Hall as [|c ctors Hc Hall IH]; simpl; unfold_M.
  - done.
  - destruct (check_args_tokens c args ctx ("constructor " +:+ type) Htok)
      as [[? _]|[_ [msg ->]]]; done.
Qed.

(** What inference raises on an argument that is not a string. *)
Lemma infer_arg_type_non_string arg ctx :
  ¬ is_token arg →
  infer_arg_type arg ctx
    = Raise (if hashable arg then no_attribute arg "isdigit" else unhashable arg).
Proof. intros Harg. destruct arg; try done. destruct Harg. by eexists. Qed.

Lemma accepts_non_string ctor arg args ctx :
  ¬ is_token arg → ¬ accepts ctor (arg :: args) ctx.
Proof.
  intros Harg [_ Hall]. apply Forall2_cons_inv_r in Hall
    as (param & params & Hinfer & _ & _).
  rewrite infer_arg_type_non_string in Hinfer by done. done.
Qed.

(** The loop leaves a constructor of another arity behind, and the exception
    of the first constructor of the right arity is not one it catches. *)
Lemma try_constructors_non_string pre ctor post id type arg args ctx :
  Forall (λ c, length (meth_params c) ≠ S (length args)) pre →
  length (meth_params ctor) = S (length args) →
  ¬ is_token arg →
  try_constructors (pre ++ ctor :: post) id type (arg :: args) ctx
    = (Raise (if hashable arg then no_attribute arg "isdigit" else unhashable arg),
       ctx).
Proof.
  intros Hpre Hlen Harg.
  induction Hpre as [|c pre Hc Hpre IH]; simpl; unfold_M; unfold check_args; simpl.
  - rewrite Hlen, Nat.eqb_refl. simpl.
    destruct (meth_params ctor) as [|param params]; [done|]. simpl.
    rewrite infer_arg_type_non_string by done. by destruct (hashable arg).
  - destruct (Nat.eqb_spec (length (meth_params c)) (S (length args)));
      [done | by simpl].
Qed.

End constructors.

(** C4 (where the code departs from it): a Create step whose first argument
    is not a string, a number of the JSON document for one, does not end
    with [NoMatchingConstructor] although no constructor matches: the first
    constructor with as many parameters as there are arguments asks for the
    type of the argument, inference reads [arg.isdigit], and the
    [AttributeError] (a [TypeError] for a list or an object) leaves
    [validate_create] through its [except DSLValidationError]. *)
Theorem validate_create_non_string_argument (id type : string)
    (arg : pyval) (args : list pyval) (ctx : DSLContext) (cls : Class)
    (pre post : list Method) (ctor : Method) :
  get_class (ast ctx) type = Some (SymClass cls) →
  filter (λ m, meth_kind m = "constructor") (class_methods cls)
    = pre ++ ctor :: post →
  Forall (λ c, length (meth_params c) ≠ length (arg :: args)) pre →
  length (meth_params ctor) = length (arg :: args) →
  ¬ is_token arg →
  Forall (λ c, ¬ accepts c (arg :: args) ctx) (pre ++ ctor :: post) ∧
  validate_create id type (arg :: args) ctx
    = (Raise (if hashable arg then no_attribute arg "isdigit" else unhashable arg),
       ctx) ∧
  validate_create id type (arg :: args) ctx
    ≠ (Raise (NoMatchingConstructor type), ctx).
Proof.
  intros Hcls Hctors Hpre Hlen Harg.
  assert (validate_create id type (arg :: args) ctx
    = (Raise (if hashable arg then no_attribute arg "isdigit" else unhashable arg),
       ctx)) as Hrun.
  { unfold validate_create, get_constructors. unfold_M.
    rewrite Hcls, Hctors. by apply try_constructors_non_string. }
  split_and!; [|done|].
  - apply Forall_forall. intros c _. by apply accepts_non_string.
  - rewrite Hrun. by destruct (hashable arg).
Qed.

(** The number 2 for the name of a fruit: the step raises [AttributeError],
    and so does the plan, without the annotation of a validation error. *)
Lemma validate_create_non_string_argument_witness :
  Forall (λ c, ¬ accepts c [PInt 2] (DSLContext_init fruit_provider))
    (filter (λ m, meth_kind m = "constructor") (class_methods Fruit)) ∧
  validate_create "f" "lib::Fruit" [PInt 2] (DSLContext_init fruit_provider)
    = (Raise (AttributeError "'int' object has no attribute 'isdigit'"),
       DSLContext_init fruit_provider) ∧
  validate_plan {| test := "a fruit named 2";
                   steps := [CreateStep "f" "lib::Fruit" [PInt 2]] |}
      fruit_provider
    = (Raise (AttributeError "'int' object has no attribute 'isdigit'"),
       DSLContext_init fruit_provider).
Proof.
  destruct (validate_create_non_string_argument "f" "lib::Fruit" (PInt 2) []
    (DSLContext_init fruit_provider) Fruit []
    [] {| meth_kind := "constructor"; meth_name := "Fruit";
          meth_fqn := "lib::Fruit::Fruit"; meth_return_type := None;
          meth_params := [{| param_name := "name"; param_type := "std::string" |}] |})
    as (Hnone & Hrun & _).
  - vm_compute. reflexivity.
  - reflexivity.
  - constructor.
  - reflexivity.
  - by intros [s Hs].
  - split_and!; [exact Hnone | exact Hrun | by vm_compute].
Defined.

Lemma failing_step_keeps_environment_witness :
  validate_step (CreateStep "f" "lib::Fruit" [PStr "apple"; PStr "banana"])
      (DSLContext_init fruit_provider)
    = (Raise (NoMatchingConstructor "lib::Fruit"), DSLContext_init fruit_provider) ∧
  validate_steps 0 [CreateStep "f" "lib::Fruit" [PStr "apple"; PStr "banana"];
                    CreateStep "g" "lib::Fruit" [PStr "pear"]]
      (DSLContext_init fruit_provider)
    = (Raise (DSLValidationError
         "Step 0 (create): No matching constructor for 'lib::Fruit'"),
       DSLContext_init fruit_provider).
Proof.
  split; [vm_compute; reflexivity|].
  refine (proj2 (failing_step_keeps_environment
    (CreateStep "f" "lib::Fruit" [PStr "apple"; PStr "banana"])
    (DSLContext_init fruit_provider) (DSLContext_init fruit_provider)
    (NoMatchingConstructor "lib::Fruit") _) 0 [] _ _ _);
    vm_compute; reflexivity.
Defined.

(** The plan of [dsl.py] validates against the fruit library, and binds the
    four variables its steps introduce. *)
Example json_plan_validates :
  (validate_plan json_plan fruit_provider).1 = Return tt ∧
  dom (variables (validate_plan json_plan fruit_provider).2)
    = {["box"; "fruit_0"; "fruit_1"; "count"]}.
Proof. split; by vm_compute. Qed.

(** The second step of this plan is the first to fail: its error carries
    the index 1 and the operation name, the third step is not reached, and
    the environment holds the binding of the first step only. *)
Example fail_fast_example :
  validate_plan
    {| test := "two fruits in one";
       steps := [CreateStep "box" "lib::BoxOfFruits" [];
                 CreateStep "f" "lib::Fruit" [PStr "apple"; PStr "banana"];
                 CreateStep "g" "lib::Nowhere" []] |} fruit_provider
  = (Raise (DSLValidationError
       "Step 1 (create): No matching constructor for 'lib::Fruit'"),
     set_variable "box" (Some "lib::BoxOfFruits") (DSLContext_init fruit_provider)).
Proof. by vm_compute. Qed.

(** ** Field reads *)

(** C1: a Get step whose target is bound to a class that declares the field
    does not succeed: it raises [AttributeError], outside the validation
    errors, and the environment gains no binding for [result]. *)
Theorem validate_get_declared_field (target field result type : string)
    (ctx : DSLContext) (cls : Class) :
  variables ctx !! target = Some (Some type) →
  get_class (ast ctx) type = Some (SymClass cls) →
  field ∈ field_name <$> class_fields cls →
  validate_get target field result ctx
    = (Raise (AttributeError "'DSLContext' object has no attribute 'values'"), ctx).
Proof.
  intros Ht Hcls Hf. unfold validate_get. rewrite Ht. simpl. rewrite Hcls.
  by rewrite bool_decide_eq_true_2.
Qed.

Lemma validate_get_declared_field_witness :
  validate_plan
    {| test := "read a field";
       steps := [CreateStep "f" "lib::Fruit" [PStr "apple"];
                 GetStep "f" "name" "n"] |} fruit_provider
  = (Raise (AttributeError "'DSLContext' object has no attribute 'values'"),
     set_variable "f" (Some "lib::Fruit") (DSLContext_init fruit_provider)) ∧
  validate_get "f" "name" "n"
    (set_variable "f" (Some "lib::Fruit") (DSLContext_init fruit_provider))
  = (Raise (AttributeError "'DSLContext' object has no attribute 'values'"),
     set_variable "f" (Some "lib::Fruit") (DSLContext_init fruit_provider)).
Proof.
  split; [vm_compute; reflexivity|].
  apply (validate_get_declared_field "f" "name" "n" "lib::Fruit"
    (set_variable "f" (Some "lib::Fruit") (DSLContext_init fruit_provider)) Fruit).
  - vm_compute. reflexivity.
  - vm_compute. reflexivity.
  - simpl. apply list_elem_of_here.
Defined.

(** ** The symbol index *)

(** C2 (as amended): a symbol found under an FQN is returned by [get_class]
    exactly when its kind is ["class_decl"] or ["struct_decl"], and for every
    other kind [get_class] returns nothing; [get_constructors] fails with
    [UnknownType] exactly when the FQN is not indexed with one of these two
    kinds. *)
Theorem get_class_by_kind (self : JsonASTProvider) (fqn : string) :
  (∀ sym, symbols self !! fqn = Some sym →
     (get_class self fqn = Some sym ↔
        sym_kind sym = "class_decl" ∨ sym_kind sym = "struct_decl") ∧
     (¬ (sym_kind sym = "class_decl" ∨ sym_kind sym = "struct_decl") →
        get_class self fqn = None)) ∧
  (get_constructors self fqn = Raise (UnknownType fqn) ↔
     ¬ ∃ sym, symbols self !! fqn = Some sym ∧
         (sym_kind sym = "class_decl" ∨ sym_kind sym = "struct_decl")).
Proof.
  assert (∀ k, is_class_kind k = true ↔ k = "class_decl" ∨ k = "struct_decl")
    as Hkind.
  { intros k. unfold is_class_kind.
    by rewrite orb_true_iff, !bool_decide_eq_true. }
  split.
  - intros sym Hsym. unfold get_class. rewrite Hsym, <- Hkind.
    destruct (is_class_kind (sym_kind sym)); split; naive_solver.
  - unfold get_constructors, get_class.
    destruct (symbols self !! fqn) as [sym|] eqn:Hsym.
    + destruct (is_class_kind (sym_kind sym)) eqn:Hk.
      * apply Hkind in Hk. destruct sym; split; try done; naive_solver.
      * split; [|done]. intros _ (sym' & [= <-] & Hk'%Hkind). congruence.
    + split; [|done]. by intros _ (sym' & [=] & _).
Qed.

(** A class indexed with the kind ["type"] is not a class for [get_class],
    and [get_constructors] fails with [UnknownType] on it although it has a
    constructor. *)
Lemma kind_type_is_not_a_class :
  symbols typed_provider !! "lib::Fruit" = Some (SymClass typed_Fruit) ∧
  sym_kind (SymClass typed_Fruit) = "type" ∧
  get_class typed_provider "lib::Fruit" = None ∧
  get_constructors typed_provider "lib::Fruit" = Raise (UnknownType "lib::Fruit").
Proof. by vm_compute. Qed.

(** ** Parsing a step *)

Section parsing.
Implicit Types (data kw : gmap string pyval) (s key : string).

Lemma STEP_CLASSES_lookup s :
  STEP_CLASSES !! s =
    if decide (s = "create") then Some CreateStep_init
    else if decide (s = "call") then Some CallStep_init
    else if decide (s = "get") then Some GetStep_init
    else if decide (s = "assert") then Some AssertStep_init
    else if decide (s = "expect_fail") then Some ExpectFailStep_init
    else None.
Proof.
  unfold STEP_CLASSES. simpl.
  repeat (case_decide; [subst; by simplify_map_eq|]).
  by simplify_map_eq.
Qed.

Lemma recognized_ops_spec s :
  s ∈ recognized_ops ↔ is_Some (STEP_CLASSES !! s).
Proof.
  rewrite STEP_CLASSES_lookup. unfold recognized_ops.
  repeat (case_decide; [subst; split; [by eauto | intros _; set_solver]|]).
  split; [set_solver | by intros []].
Qed.

(** No step class raises a validation error. *)
Lemma step_class_no_validation_error s cls kw msg :
  STEP_CLASSES !! s = Some cls → cls kw ≠ Raise (DSLValidationError msg).
Proof.
  rewrite STEP_CLASSES_lookup.
  repeat (case_decide; [intros [= <-]|]); [..|done];
    unfold CreateStep_init, CallStep_init, GetStep_init, AssertStep_init,
      AssertExpr_init, ExpectFailStep_init, getitem, mbind, outcome_bind;
    repeat (case_match; simplify_eq/=; try done).
Qed.

Lemma step_class_missing_key s cls kw pre key post :
  STEP_CLASSES !! s = Some cls →
  required_keys s = pre ++ key :: post →
  Forall (λ k, is_Some (kw !! k)) pre → kw !! key = None →
  cls kw = Raise (KeyError key).
Proof.
  rewrite STEP_CLASSES_lookup. unfold required_keys.
  repeat (case_decide; [intros [= <-] Hk Hpre Hkey|]); [..|done];
    unfold CreateStep_init, CallStep_init, GetStep_init, AssertStep_init,
      ExpectFailStep_init, getitem, mbind, outcome_bind;
    repeat (destruct pre as [|? pre]; simplify_eq/=;
            try (rewrite ?Hkey; done);
            try (apply Forall_cons in Hpre as [[? ->] Hpre]; simpl)).
Qed.

(** Nor does the call of one, whatever the keywords. *)
Lemma call_with_keywords_no_validation_error s cls data msg :
  STEP_CLASSES !! s = Some cls →
  call_with_keywords cls data ≠ Raise (DSLValidationError msg).
Proof.
  intros Hcls. unfold call_with_keywords. destruct (data !! "self"); [done|].
  by eapply step_class_no_validation_error.
Qed.

End parsing.

(** C7 (as amended): [parse_step] fails with [UnknownOperation] exactly when
    the [op] entry (or [None], when there is none) is hashable and is not one
    of the five recognized strings.  When [op] is recognized, the description
    has no entry named [self] and a key its step class requires is absent,
    it raises the built-in [KeyError] for the first such key, which is not an
    error of the DSL's error type; when [op] is recognized and there is an
    entry named [self], it raises [TypeError], whatever the other entries. *)
Theorem parse_step_failures (data : gmap string pyval) :
  (∀ msg, parse_step data = Raise (DSLValidationError msg) ↔
     hashable (get_default data "op" PNone) = true ∧
     (∀ s, get_default data "op" PNone = PStr s → s ∉ recognized_ops) ∧
     DSLValidationError msg
       = UnknownOperation (py_str (get_default data "op" PNone))) ∧
  (∀ s pre key post,
     data !! "op" = Some (PStr s) → s ∈ recognized_ops →
     data !! "self" = None →
     required_keys s = pre ++ key :: post →
     Forall (λ k, is_Some (data !! k)) pre → data !! key = None →
     parse_step data = Raise (KeyError key) ∧
     ∀ msg, parse_step data ≠ Raise (DSLValidationError msg)) ∧
  (∀ s, data !! "op" = Some (PStr s) → s ∈ recognized_ops →
     is_Some (data !! "self") →
     ∃ msg, parse_step data = Raise (TypeError msg)).
Proof.
  unfold parse_step. split_and!.
  - intros msg. destruct (get_default data "op" PNone) as [| | |s| |] eqn:Hop;
      simpl; try (split; [by intros [= <-] | by intros (_ & _ & [= <-])]);
      try (split; [done | by intros [[=] _]]).
    destruct (STEP_CLASSES !! s) as [cls|] eqn:Hcls.
    + split.
      * intros H. by apply call_with_keywords_no_validation_error with (s:=s) in H.
      * intros (_ & Hs & _). exfalso. apply (Hs s eq_refl).
        apply recognized_ops_spec. by rewrite Hcls.
    + split.
      * intros [= <-]. split_and!; try done.
        intros ? [= <-] Hin%recognized_ops_spec. rewrite Hcls in Hin.
        by destruct Hin.
      * by intros (_ & _ & [= <-]).
  - intros s pre key post Hop [cls Hcls]%recognized_ops_spec Hself Hk Hpre Hkey.
    unfold get_default, call_with_keywords. rewrite Hop. simpl.
    rewrite Hcls, Hself.
    rewrite (step_class_missing_key s cls data pre key post) by done.
    split; [done | by intros msg].
  - intros s Hop [cls Hcls]%recognized_ops_spec [v Hself].
    unfold get_default, call_with_keywords. rewrite Hop. simpl.
    rewrite Hcls, Hself. by eexists.
Qed.

(** A create step without ["type"] raises [KeyError], not an error of the
    DSL's error type; an unknown operation raises [UnknownOperation]. *)
Lemma create_without_type_raises_KeyError :
  parse_step {[ "op" := PStr "create"; "id" := PStr "f" ]} = Raise (KeyError "type") ∧
  parse_step {[ "op" := PStr "destroy" ]} = Raise (UnknownOperation "destroy").
Proof. split; by vm_compute. Qed.

(** An entry named ["self"] makes a complete create step fail, and comes
    before the missing key of an incomplete one. *)
Example entry_named_self :
  (∃ msg, parse_step {[ "op" := PStr "create"; "id" := PStr "f";
                        "type" := PStr "lib::Fruit"; "self" := PInt 0 ]}
          = Raise (TypeError msg)) ∧
  (∃ msg, parse_step {[ "op" := PStr "create"; "self" := PInt 0 ]}
          = Raise (TypeError msg)) ∧
  parse_step {[ "op" := PStr "destroy"; "self" := PInt 0 ]}
    = Raise (UnknownOperation "destroy").
Proof. split_and!; [eexists; by vm_compute.. | by vm_compute]. Qed.

Import Search.

(** * Properties of the search *)

(** ** Float comparison *)

Section float_order.

Lemma SFcompare_Lt_Gt (a b : spec_float) :
  SFcompare a b = Some Lt → SFcompare b a = Some Gt.
Proof.
  destruct a as [[]|[]| |[] m1 e1], b as [[]|[]| |[] m2 e2]; simpl; try done.
  all: pose proof (Pos.compare_cont_antisym m1 m2 Eq) as Hm; simpl in Hm.
  all: rewrite (Z.compare_antisym e1 e2), <- Hm.
  all: destruct (e1 ?= e2)%Z; simpl; try done.
  all: by destruct (Pos.compare_cont Eq m1 m2).
Qed.

(** [<] on floats is asymmetric, NaN included. *)
Lemma ltb_asym (x y : float) :
  (x <? y)%float = true → (y <? x)%float = false.
Proof.
  rewrite !FloatAxioms.ltb_spec. unfold SFltb.
  destruct (SFcompare (Prim2SF x) (Prim2SF y)) as [[]|] eqn:Hc; try done.
  by rewrite (SFcompare_Lt_Gt _ _ Hc).
Qed.

Lemma SFcompare_not_Lt (a b : spec_float) :
  a ≠ S754_nan → b ≠ S754_nan →
  SFcompare a b ≠ Some Lt → SFcompare b a = Some Lt ∨ SFcompare b a = Some Eq.
Proof.
  destruct a as [[]|[]| |[] m1 e1], b as [[]|[]| |[] m2 e2]; simpl; try done;
    try (by left); try (by right).
  all: pose proof (Pos.compare_cont_antisym m1 m2 Eq) as Hm; simpl in Hm.
  all: rewrite (Z.compare_antisym e1 e2), <- Hm.
  all: destruct (e1 ?= e2)%Z; simpl; try done; try (by left).
  all: destruct (Pos.compare_cont Eq m1 m2); simpl; try done;
    try (by left); try (by right).
Qed.

Lemma is_nan_false (x : float) : is_nan x = false → Prim2SF x ≠ S754_nan.
Proof.
  unfold is_nan. rewrite FloatAxioms.eqb_spec. intros H Hx.
  by rewrite Hx in H.
Qed.

(** Between two floats that are numbers, [x] is not less than [y] exactly
    when [y] is at most [x]. *)
Lemma leb_of_not_ltb (x y : float) :
  is_nan x = false → is_nan y = false →
  (x <? y)%float = false → (y <=? x)%float = true.
Proof.
  intros Hx%is_nan_false Hy%is_nan_false.
  rewrite FloatAxioms.ltb_spec, FloatAxioms.leb_spec. unfold SFltb, SFleb.
  intros Hlt.
  destruct (SFcompare_not_Lt (Prim2SF x) (Prim2SF y)) as [-> | ->]; try done.
  intros Hc. by rewrite Hc in Hlt.
Qed.

End float_order.

(** ** Sorting and slicing *)

Section sorting.
Context {A : Type} (key : A → float).
Implicit Types (x y : A) (l : list A).

Lemma insert_desc_perm x l : insert_desc key x l ≡ₚ x :: l.
Proof.
  induction l as [|y l IH]; simpl; [done|].
  destruct (key x <? key y)%float; [|done].
  by rewrite IH, Permutation_swap.
Qed.

Lemma sort_desc_perm l : sort_desc key l ≡ₚ l.
Proof.
  induction l as [|x l IH]; simpl; [done|].
  by rewrite insert_desc_perm, IH.
Qed.

Lemma insert_desc_descending x l :
  descending key l → descending key (insert_desc key x l).
Proof.
  unfold descending. induction 1 as [|y l Hl IH Hy]; simpl.
  - by repeat constructor.
  - destruct (key x <? key y)%float eqn:Hxy.
    + constructor; [done|].
      destruct Hy as [|z l Hyz]; simpl.
      * constructor. by apply ltb_asym.
      * destruct (key x <? key z)%float; constructor;
          first [done | by apply ltb_asym].
    + by repeat constructor.
Qed.

Lemma sort_desc_descending l : descending key (sort_desc key l).
Proof.
  induction l as [|x l IH]; simpl; [constructor|].
  by apply insert_desc_descending.
Qed.

Lemma take_descending n l : descending key l → descending key (take n l).
Proof.
  unfold descending. intros Hl. revert n.
  induction Hl as [|y l Hl IH Hy]; intros [|n]; simpl; try constructor.
  - apply IH.
  - destruct Hy, n; simpl; by constructor.
Qed.

Lemma slice_to_descending k l :
  descending key l → descending key (slice_to k l).
Proof. unfold slice_to. case_match; apply take_descending. Qed.

Lemma descending_non_increasing l :
  Forall (λ x, is_nan (key x) = false) l →
  descending key l → non_increasing key l.
Proof.
  unfold descending, non_increasing. intros Hnan Hl.
  induction Hl as [|x l Hl IH Hx]; [constructor|].
  apply Forall_cons in Hnan as [Hxn Hnan]. constructor; [by apply IH|].
  destruct Hx as [|y l' Hxy]; constructor.
  apply Forall_cons in Hnan as [Hyn _]. by apply leb_of_not_ltb.
Qed.

Lemma slice_to_subseteq k l : slice_to k l ⊆ l.
Proof.
  unfold slice_to. intros x.
  case_match; intros (i & Hi & _)%elem_of_take; by eapply list_elem_of_lookup_2.
Qed.

Lemma slice_to_length k l : (0 ≤ k)%Z → (Z.of_nat (length (slice_to k l)) ≤ k)%Z.
Proof.
  intros Hk. unfold slice_to. rewrite (proj2 (Z.leb_le 0 k) Hk), length_take. lia.
Qed.

End sorting.

(** ** Insertion-ordered dicts *)

Section odicts.
Context {V : Type}.
Implicit Types (d : odict V) (k : string) (v : V).

Lemma od_lookup_None k d : od_lookup k d = None ↔ k ∉ d.*1.
Proof.
  induction d as [|[k' v] d IH]; simpl.
  - split; [set_solver | done].
  - case_decide; set_solver.
Qed.

Lemma od_lookup_elem_of k v d :
  NoDup d.*1 → (k, v) ∈ d → od_lookup k d = Some v.
Proof.
  induction d as [|[k' v'] d IH]; simpl; [set_solver|].
  intros [Hk' Hd]%NoDup_cons [[= -> ->]|Hin]%elem_of_cons.
  - by rewrite decide_True.
  - rewrite decide_False; [by apply IH|].
    intros ->. apply Hk'. apply list_elem_of_fmap. by exists (k, v).
Qed.

Lemma od_lookup_snoc k k' v d :
  od_lookup k' (d ++ [(k, v)]) =
    match od_lookup k' d with
    | Some r => Some r
    | None => if decide (k = k') then Some v else None
    end.
Proof.
  induction d as [|[k0 v0] d IH]; simpl; [done|].
  by destruct (decide (k0 = k')).
Qed.

Lemma od_alter_keys (f : V → V) k d : (od_alter f k d).*1 = d.*1.
Proof.
  unfold od_alter. induction d as [|[k' v] d IH]; [done|].
  rewrite !fmap_cons, IH. simpl. by case_decide.
Qed.

Lemma od_lookup_alter (f : V → V) k k' d :
  od_lookup k' (od_alter f k d) =
    if decide (k' = k) then f <$> od_lookup k' d else od_lookup k' d.
Proof.
  induction d as [|[k0 v0] d IH]; simpl; [by case_decide|].
  rewrite IH. repeat (case_decide; simplify_eq/=); done.
Qed.

Lemma od_setdefault_NoDup k v d :
  NoDup d.*1 → NoDup (od_setdefault k v d).*1.
Proof.
  intros Hd. unfold od_setdefault.
  destruct (od_lookup k d) eqn:Hk; [done|].
  rewrite fmap_app. simpl. apply NoDup_app. split_and!; [done| |apply NoDup_singleton].
  intros x Hx ->%list_elem_of_singleton. by apply od_lookup_None in Hk.
Qed.

Lemma od_lookup_setdefault k k' v d :
  od_lookup k' (od_setdefault k v d) =
    match od_lookup k' d with
    | Some r => Some r
    | None => if decide (k = k') then Some v else None
    end.
Proof.
  unfold od_setdefault. destruct (od_lookup k d) eqn:Hk.
  - destruct (od_lookup k' d) eqn:Hk'; [done|].
    case_decide; [congruence | done].
  - apply od_lookup_snoc.
Qed.

Lemma od_set_NoDup k v d : NoDup d.*1 → NoDup (od_set k v d).*1.
Proof.
  intros Hd. unfold od_set. destruct (od_lookup k d) eqn:Hk.
  - by rewrite od_alter_keys.
  - rewrite fmap_app. simpl. apply NoDup_app.
    split_and!; [done| |apply NoDup_singleton].
    intros x Hx ->%list_elem_of_singleton. by apply od_lookup_None in Hk.
Qed.

End odicts.

Lemma semantic_map_of_NoDup (semantic_hits : list Scored) :
  NoDup (semantic_map_of semantic_hits).*1.
Proof.
  unfold semantic_map_of.
  assert (∀ d : odict float, NoDup d.*1 →
    NoDup (fold_left (λ d hit, od_set (sc_fqn hit) (sc_score hit) d)
             semantic_hits d).*1) as Hgen.
  { induction semantic_hits as [|hit hits IH]; intros d Hd; simpl; [done|].
    apply IH. by apply od_set_NoDup. }
  apply Hgen. constructor.
Qed.

(** ** The fused table *)

Section fusion.
Implicit Types (tokens : list string) (T : odict Entry) (k : string).

Lemma best_name_score_snoc tokens k symbols symbol :
  best_name_score tokens k (symbols ++ [symbol]) =
    if decide (sv_fqn symbol = k) then
      if (0 <? name_match_score symbol tokens)%float
      then py_max (best_name_score tokens k symbols) (name_match_score symbol tokens)
      else best_name_score tokens k symbols
    else best_name_score tokens k symbols.
Proof. unfold best_name_score. by rewrite fold_left_app. Qed.

(** After the name-based loops, an entry's [name] is the best name score of
    its FQN and its [semantic] is 0. *)
Lemma name_table tokens symbols :
  table_of (λ k, best_name_score tokens k symbols) (λ _, 0%float)
    (fold_left (add_name_score tokens) symbols []).
Proof.
  induction symbols as [|symbol symbols IH] using rev_ind.
  - split; [constructor | done].
  - rewrite fold_left_app. cbn [fold_left].
    destruct IH as [Hnd IH]. set (T := fold_left (add_name_score tokens) symbols []) in *.
    unfold add_name_score.
    destruct (0 <? name_match_score symbol tokens)%float eqn:Hpos.
    + split.
      * rewrite od_alter_keys. by apply od_setdefault_NoDup.
      * intros k. rewrite od_lookup_alter, od_lookup_setdefault,
          best_name_score_snoc, Hpos.
        specialize (IH k).
        destruct (decide (k = sv_fqn symbol)) as [->|Hk].
        -- rewrite !decide_True by done.
           destruct (od_lookup (sv_fqn symbol) T) as [r|]; simpl.
           ++ destruct IH as (? & ? & <-). done.
           ++ destruct IH as [-> _]. done.
        -- rewrite !decide_False by done.
           by destruct (od_lookup k T).
    + split; [done|]. intros k. rewrite best_name_score_snoc, Hpos.
      specialize (IH k). by case_decide.
Qed.

Lemma semantic_table L pairs T :
  table_of L (λ _, 0%float) T →
  table_of L (λ k, last_semantic k pairs) (fold_left add_semantic_score pairs T).
Proof.
  intros HT. induction pairs as [|[f v] pairs IH] using rev_ind; [done|].
  rewrite fold_left_app. cbn [fold_left]. destruct IH as [Hnd IH].
  set (T' := fold_left add_semantic_score pairs T) in *.
  unfold add_semantic_score. split.
  - rewrite od_alter_keys. by apply od_setdefault_NoDup.
  - intros k. rewrite od_lookup_alter, od_lookup_setdefault.
    unfold last_semantic. rewrite fold_left_app. simpl.
    fold (last_semantic k pairs). specialize (IH k).
    destruct (decide (k = f)) as [->|Hk].
    + rewrite !decide_True by done.
      destruct (od_lookup f T') as [r|]; simpl; [naive_solver|].
      destruct IH as [-> _]. done.
    + rewrite !decide_False by done. by destruct (od_lookup k T').
Qed.

Lemma last_semantic_lookup k (pairs : odict float) :
  NoDup pairs.*1 → last_semantic k pairs = semantic_score pairs k.
Proof.
  unfold last_semantic, semantic_score. generalize 0%float as acc.
  induction pairs as [|[f v] pairs IH]; intros acc Hnd; simpl; [done|].
  apply NoDup_cons in Hnd as [Hf Hnd]. rewrite IH by done.
  destruct (decide (f = k)) as [->|]; [|done].
  by rewrite (proj2 (od_lookup_None k pairs) Hf).
Qed.

(** The table [fuse] builds holds, under each FQN, its two channel scores. *)
Lemma fuse_table self tokens (semantic_map : odict float) :
  NoDup semantic_map.*1 →
  table_of (lexical_score tokens (ast_index self)) (semantic_score semantic_map)
    (fuse self tokens semantic_map).
Proof.
  intros Hnd. unfold fuse, lexical_score.
  destruct (semantic_table _ semantic_map _
              (name_table tokens (walk_symbols (ast_index self)))) as [? Hrows].
  split; [done|]. intros k. specialize (Hrows k).
  by rewrite last_semantic_lookup in Hrows.
Qed.

End fusion.

(** ** The semantic channel *)

Section semantic_channel.
Implicit Types (items : list EmbeddingRecord) (scored : list Scored).

Lemma score_all_Return qe items scored :
  score_all qe items = Return scored ↔ Forall2 (scored_of qe) items scored.
Proof.
  revert scored. induction items as [|item items IH]; intros scored; simpl.
  - split; [intros [= <-]; constructor | by intros ->%Forall2_nil_inv_l].
  - unfold mbind, outcome_bind. split.
    + destruct (cosine_similarity qe (embedding item)) as [v|] eqn:Hv; [|done].
      destruct (score_all qe items) as [rest|]; [|done].
      intros [= <-]. constructor; [done | by apply IH].
    + intros (sc & rest & (Hv & ? & ? & ? & ?) & Hrest & ->)%Forall2_cons_inv_l.
      rewrite Hv, (proj2 (IH rest) Hrest). destruct sc; simpl in *. by subst.
Qed.

Lemma score_all_returns qe items :
  (∃ scored, score_all qe items = Return scored) ↔
  Forall (λ item, ∃ v, cosine_similarity qe (embedding item) = Return v) items.
Proof.
  induction items as [|item items IH]; simpl.
  - split; [constructor | by eauto].
  - unfold mbind, outcome_bind. rewrite Forall_cons, <- IH.
    destruct (cosine_similarity qe (embedding item)) as [v|].
    + destruct (score_all qe items) as [rest|]; split.
      * by eauto.
      * by eauto.
      * by intros [? [=]].
      * by intros [_ [? [=]]].
    + split; [by intros [? [=]] | by intros [[? [=]] _]].
Qed.

(** The hits of the semantic search are records of the store, and are in
    non-increasing order of their cosine when no cosine is NaN. *)
Lemma raw_semantic_search_records (self : CodebaseContext) qe (top_k : Z)
    (hits : list Scored) :
  raw_semantic_search self qe top_k = Return hits →
  ∀ h, h ∈ hits → ∃ item, item ∈ embeddings self ∧ scored_of qe item h.
Proof.
  unfold raw_semantic_search, mbind, outcome_bind.
  destruct (score_all _ _) as [scored|] eqn:Hs; [|done]. intros [= <-].
  apply score_all_Return in Hs.
  intros h Hh%slice_to_subseteq. rewrite sort_desc_perm in Hh.
  apply list_elem_of_lookup in Hh as [i Hi].
  destruct (Forall2_lookup_r _ _ _ _ _ Hs Hi) as (item & Hitem & Hsc).
  exists item. split; [by eapply list_elem_of_lookup_2 | done].
Qed.

Lemma raw_semantic_search_non_increasing (self : CodebaseContext) qe
    (top_k : Z) (hits : list Scored) :
  raw_semantic_search self qe top_k = Return hits →
  cosines_are_numbers self qe →
  non_increasing sc_score hits.
Proof.
  intros Hraw Hnan. apply descending_non_increasing.
  - apply Forall_forall. intros h Hh.
    destruct (raw_semantic_search_records _ _ _ _ Hraw h Hh)
      as (item & Hitem & Hv & _).
    by apply (proj1 (Forall_forall _ _) Hnan item Hitem).
  - revert Hraw. unfold raw_semantic_search, mbind, outcome_bind.
    destruct (score_all _ _) as [scored|]; [|done]. intros [= <-].
    apply slice_to_descending, sort_desc_descending.
Qed.

End semantic_channel.

(** No FQN has a NaN score when no row of the fused table has one: the FQNs
    without a row score 0. *)
Lemma fused_rows_all_fqns self tokens (semantic_map : odict float) :
  NoDup semantic_map.*1 →
  forallb (λ kv, negb (is_nan (round3 (fused kv.2))))
    (fuse self tokens semantic_map) = true →
  ∀ f, is_nan (round3 (0.7 * semantic_score semantic_map f
                       + 0.3 * lexical_score tokens (ast_index self) f)) = false.
Proof.
  intros Hnd Hrows f.
  destruct (fuse_table self tokens semantic_map Hnd) as [_ Htable].
  specialize (Htable f).
  destruct (od_lookup f (fuse self tokens semantic_map)) as [r|] eqn:Hf.
  - destruct Htable as (_ & <- & <-).
    assert (∀ (T : odict Entry), od_lookup f T = Some r → (f, r) ∈ T) as Hin.
    { induction T as [|[k' r'] T IH]; simpl; [done|].
      case_decide; [intros [= ->]; subst; left | right; by apply IH]. }
    apply Hin, list_elem_of_In in Hf.
    apply (proj1 (forallb_forall _ _) Hrows) in Hf. simpl in Hf.
    by apply negb_true_iff in Hf.
  - destruct Htable as [-> ->]. by vm_compute.
Qed.

(** C3 (as amended): in a search in which no cosine and no score is NaN,
    every hit of the hybrid search is the entry of one FQN and its score is
    the fused score [0.7 * semantic + 0.3 * lexical] rounded to three
    decimals (a missing channel counting 0, the semantic scores being those
    of the semantic hits, which come best first); no hit has a fused score
    equal to 0; its sources are the channels whose score is greater than 0;
    the hits are in non-increasing order of their score; and for a [top_k]
    that is not negative there are at most [top_k] hits.  (The two sorts of the
    code compare with [<]: a NaN among their keys is not ordered, and the
    statement is not made for such a search.) *)
Theorem semantic_search_hits (self : CodebaseContext)
    (query_embedding : list float) (query : string) (top_k : Z)
    (semantic_hits : list Scored) (hits : list Hit) :
  raw_semantic_search self query_embedding (top_k * 2) = Return semantic_hits →
  semantic_search self query_embedding query top_k = Return hits →
  let sem := semantic_score (semantic_map_of semantic_hits) in
  let lex := lexical_score (tokenize_query query) (ast_index self) in
  cosines_are_numbers self query_embedding →
  (∀ f, is_nan (round3 (0.7 * sem f + 0.3 * lex f)) = false) →
  non_increasing sc_score semantic_hits ∧
  (∀ h, h ∈ hits →
     score h = round3 (0.7 * sem (fqn h) + 0.3 * lex (fqn h))%float ∧
     (0.7 * sem (fqn h) + 0.3 * lex (fqn h) =? 0)%float = false ∧
     sources h =
       (if (0 <? sem (fqn h))%float then ["semantic"] else [])
       ++ (if (0 <? lex (fqn h))%float then ["name"] else [])) ∧
  non_increasing score hits ∧
  ((0 ≤ top_k)%Z → (Z.of_nat (length hits) ≤ top_k)%Z).
Proof.
  intros Hraw Hrun sem lex Hcos Hnan.
  unfold semantic_search in Hrun. rewrite Hraw in Hrun. simpl in Hrun.
  injection Hrun as <-.
  assert (∀ h, h ∈ slice_to top_k (sort_desc score
            (omap (λ kv, final_hit kv.2)
               (fuse self (tokenize_query query) (semantic_map_of semantic_hits)))) →
     score h = round3 (0.7 * sem (fqn h) + 0.3 * lex (fqn h))%float ∧
     (0.7 * sem (fqn h) + 0.3 * lex (fqn h) =? 0)%float = false ∧
     sources h =
       (if (0 <? sem (fqn h))%float then ["semantic"] else [])
       ++ (if (0 <? lex (fqn h))%float then ["name"] else [])) as Hhits.
  { intros h Hh%slice_to_subseteq. rewrite sort_desc_perm in Hh.
    apply list_elem_of_omap in Hh as ([k r] & Hr & Hfinal). simpl in Hfinal.
    destruct (fuse_table self (tokenize_query query)
                (semantic_map_of semantic_hits)
                (semantic_map_of_NoDup semantic_hits)) as [Hnd Hrows].
    specialize (Hrows k). rewrite (od_lookup_elem_of _ _ _ Hnd Hr) in Hrows.
    destruct Hrows as (Hk & Hsem & Hname).
    unfold final_hit in Hfinal.
    destruct (fused r =? 0)%float eqn:Hz; [done|]. injection Hfinal as <-. simpl.
    unfold fused, sources_of, sem, lex in *. rewrite Hk, Hsem, Hname in *. done. }
  split_and!.
  - by eapply raw_semantic_search_non_increasing.
  - done.
  - apply descending_non_increasing.
    + apply Forall_forall. intros h Hh.
      destruct (Hhits h Hh) as (-> & _). apply Hnan.
    + apply slice_to_descending, sort_desc_descending.
  - apply slice_to_length.
Qed.

(** A query for which both channels answer: the six symbols of the library
    are candidates, in the order class, constructor, class, constructor,
    [add], [count]; the three hits are the best three, in the order of
    their scores. *)
Lemma semantic_search_hits_witness :
  let hits :=
    [{| fqn := "lib::BoxOfFruits"; kind := "class_decl";
        score := 0.85; sources := ["semantic"; "name"] |};
     {| fqn := "lib::BoxOfFruits::add"; kind := "cxx_method";
        score := 0.795; sources := ["semantic"; "name"] |};
     {| fqn := "lib::Fruit"; kind := "class_decl";
        score := 0.15; sources := ["name"] |}] in
  semantic_search orchard_context [1; 0]%float "add fruit" 3 = Return hits ∧
  ∃ semantic_hits,
    raw_semantic_search orchard_context [1; 0]%float (3 * 2) = Return semantic_hits ∧
    let sem := semantic_score (semantic_map_of semantic_hits) in
    let lex := lexical_score (tokenize_query "add fruit")
                 (ast_index orchard_context) in
    non_increasing sc_score semantic_hits ∧
    (∀ h, h ∈ hits →
       score h = round3 (0.7 * sem (fqn h) + 0.3 * lex (fqn h))%float ∧
       (0.7 * sem (fqn h) + 0.3 * lex (fqn h) =? 0)%float = false ∧
       sources h =
         (if (0 <? sem (fqn h))%float then ["semantic"] else [])
         ++ (if (0 <? lex (fqn h))%float then ["name"] else [])) ∧
    non_increasing score hits ∧
    ((0 ≤ 3)%Z → (Z.of_nat (length hits) ≤ 3)%Z).
Proof.
  intros hits. split; [vm_compute; reflexivity|].
  destruct (raw_semantic_search orchard_context [1; 0]%float (3 * 2))
    as [semantic_hits|] eqn:Hraw; [|by vm_compute in Hraw].
  exists semantic_hits. split; [done|].
  apply (semantic_search_hits orchard_context [1; 0]%float "add fruit" 3
           semantic_hits hits Hraw).
  - vm_compute. reflexivity.
  - repeat constructor; intros v; vm_compute; by intros [= <-].
  - apply fused_rows_all_fqns; [apply semantic_map_of_NoDup|].
    vm_compute in Hraw. injection Hraw as <-. vm_compute. reflexivity.
Defined.

(** One token of seven matches [lib::BoxOfFruits::add] and no semantic score
    is above 0: the hit's score is 0.043, not the fused score.  A negative
    semantic score is not 0, and is not listed among the sources. *)
Lemma score_is_rounded_and_sources_are_positive :
  semantic_search box_context [0; 0]%float "add qq ww zz xx yy vv" 5
    = Return [{| fqn := "lib::BoxOfFruits::add"; kind := "cxx_method";
                 score := 0.043; sources := ["name"] |}] ∧
  lexical_score (tokenize_query "add qq ww zz xx yy vv") (ast_index box_context)
      "lib::BoxOfFruits::add" = int_truediv 1 7 ∧
  (0.7 * 0 + 0.3 * int_truediv 1 7 =? 0.043)%float = false ∧
  semantic_search box_context [-1; 0]%float "zzz" 5
    = Return [{| fqn := "lib::BoxOfFruits"; kind := "unknown";
                 score := -0.7; sources := [] |}] ∧
  cosine_similarity [-1; 0]%float [1; 0]%float = Return (-1)%float.
Proof. vm_compute. by repeat split. Qed.

(** With a negative [top_k] the slices count from the end: no semantic hit
    is kept and all the lexical hits but the last are returned. *)
Example negative_top_k :
  semantic_search box_context [1; 0]%float "add count" (-1)
    = Return [{| fqn := "lib::BoxOfFruits::add"; kind := "cxx_method";
                 score := 0.15; sources := ["name"] |}].
Proof. by vm_compute. Qed.

(** ** Cosine similarity *)

(** C8: on the identical non-zero vectors [[1e-100]] the squared norms are
    not 0 but their product underflows to 0, and the division raises; on
    [[1e-200]] the result is 0.0 and on [[1e200]] it is NaN, not 1.0. *)
Theorem cosine_similarity_identical_tiny :
  cosine_similarity [1e-100]%float [1e-100]%float
    = Raise (ZeroDivisionError "float division by zero") ∧
  cosine_similarity [1e-200]%float [1e-200]%float = Return 0%float ∧
  cosine_similarity [1e200]%float [1e200]%float = Return nan ∧
  cosine_similarity [3; 4]%float [3; 4]%float = Return 1%float.
Proof. vm_compute. by repeat split. Qed.

Section cosine.
Implicit Types (x y : float) (a b : list float).

Lemma SFmul_comm (u v : spec_float) : SFmul prec emax u v = SFmul prec emax v u.
Proof.
  destruct u as [su|su| |su mu eu], v as [sv|sv| |sv mv ev]; simpl;
    rewrite ?(xorb_comm su sv); try done.
  by rewrite (Pos.mul_comm mu mv), (Z.add_comm eu ev).
Qed.

Lemma float_mul_comm x y : (x * y)%float = (y * x)%float.
Proof. apply Prim2SF_inj. rewrite !FloatAxioms.mul_spec. apply SFmul_comm. Qed.

Lemma accumulate_swap a b dot na nb :
  fold_left accumulate (zip b a) (dot, nb, na) =
    let '(dot', na', nb') := fold_left accumulate (zip a b) (dot, na, nb) in
    (dot', nb', na').
Proof.
  revert b dot na nb. induction a as [|x a IH]; intros [|y b] dot na nb;
    simpl; try done.
  rewrite (float_mul_comm y x). apply IH.
Qed.

(** A float that compares equal to 0 is one of the two zeros. *)
Lemma eqb_zero x : (x =? 0)%float = true → x = PrimFloat.zero ∨ x = PrimFloat.neg_zero.
Proof.
  rewrite FloatAxioms.eqb_spec. intros Hx.
  rewrite <- (SF2Prim_Prim2SF x).
  destruct (Prim2SF x) as [[]|[]| |[] m e]; try done; [by right | by left].
Qed.

Lemma zero_square x : (x =? 0)%float = true → (0 + x * x)%float = 0%float.
Proof. by intros [-> | ->]%eqb_zero. Qed.

Lemma accumulate_zero_left a b dot nb :
  Forall (λ x, (x =? 0)%float = true) a →
  (fold_left accumulate (zip a b) (dot, 0%float, nb)).1.2 = 0%float.
Proof.
  intros Ha. revert b dot nb.
  induction Ha as [|x a Hx Ha IH]; intros [|y b] dot nb; simpl; try done.
  rewrite (zero_square x Hx). apply IH.
Qed.

Lemma accumulate_zero_right a b dot na :
  Forall (λ y, (y =? 0)%float = true) b →
  (fold_left accumulate (zip a b) (dot, na, 0%float)).2 = 0%float.
Proof.
  intros Hb. revert a dot na.
  induction Hb as [|y b Hy Hb IH]; intros [|x a] dot na; simpl; try done.
  rewrite (zero_square y Hy). apply IH.
Qed.

End cosine.

(** Cosine similarity is symmetric: the two orders of the arguments give
    the same float, or raise the same exception. *)
Theorem cosine_similarity_sym (a b : list float) :
  cosine_similarity a b = cosine_similarity b a.
Proof.
  unfold cosine_similarity.
  rewrite (accumulate_swap a b 0 0 0).
  destruct (fold_left accumulate (zip a b) _) as [[dot na] nb].
  by rewrite orb_comm, (float_mul_comm nb na).
Qed.

(** Cosine similarity is 0.0, and nothing is divided, when every component
    of one of the two vectors is a zero. *)
Theorem cosine_similarity_zero_vector (a b : list float) :
  Forall (λ x, (x =? 0)%float = true) a ∨ Forall (λ y, (y =? 0)%float = true) b →
  cosine_similarity a b = Return 0%float.
Proof.
  intros Hab. unfold cosine_similarity.
  pose proof (accumulate_zero_left a b 0 0) as Hl.
  pose proof (accumulate_zero_right a b 0 0) as Hr.
  destruct (fold_left accumulate (zip a b) _) as [[dot na] nb]. simpl in *.
  destruct Hab as [Ha|Hb].
  - by rewrite (Hl Ha).
  - rewrite (Hr Hb). by rewrite orb_true_r.
Qed.

Lemma cosine_similarity_zero_vector_witness :
  cosine_similarity [0; -0; 0]%float [0.5; 1e300; 2]%float = Return 0%float.
Proof.
  apply cosine_similarity_zero_vector. left.
  repeat constructor.
Defined.

(** * Further properties of the validator *)

(** ** The symbol table *)

Section symbol_table.
Implicit Types (syms : gmap string Symbol) (k : string) (l : list Symbol).

Lemma fold_left_fmap_list {A B C} (f : A → B → A) (g : C → B) (l : list C) a :
  fold_left f (g <$> l) a = fold_left (λ a x, f a (g x)) l a.
Proof. revert a. induction l as [|x l IH]; intros a; simpl; [done | apply IH]. Qed.

Lemma fold_left_bind_list {A B C} (f : A → B → A) (g : C → list B) (l : list C) a :
  fold_left f (l ≫= g) a = fold_left (λ a x, fold_left f (g x) a) l a.
Proof.
  revert a. induction l as [|x l IH]; intros a; simpl; [done|].
  by rewrite fold_left_app, IH.
Qed.

Lemma add_class_symbols syms cls :
  add_class syms cls
    = fold_left (λ s sym, <[sym_fqn sym := sym]> s) (class_symbols cls) syms.
Proof. unfold add_class, class_symbols. simpl. by rewrite fold_left_fmap_list. Qed.

Lemma add_file_symbols syms file :
  add_file syms file
    = fold_left (λ s sym, <[sym_fqn sym := sym]> s) (file_symbols file) syms.
Proof.
  unfold add_file, file_symbols.
  rewrite fold_left_app, fold_left_fmap_list, fold_left_bind_list. simpl.
  f_equal. revert syms. induction (classes file) as [|cls l IH]; intros syms;
    simpl; [done|]. by rewrite add_class_symbols, IH.
Qed.

Lemma build_symbol_index_symbols idx :
  _build_symbol_index idx
    = fold_left (λ s sym, <[sym_fqn sym := sym]> s) (indexed_symbols idx) ∅.
Proof.
  unfold _build_symbol_index, indexed_symbols.
  rewrite fold_left_bind_list. generalize (∅ : gmap string Symbol).
  induction (idx.*2) as [|file l IH]; intros syms; simpl; [done|].
  by rewrite add_file_symbols, IH.
Qed.

Lemma fold_insert_last l syms k :
  fold_left (λ s sym, <[sym_fqn sym := sym]> s) l syms !! k =
    match last (filter (λ sym, sym_fqn sym = k) l) with
    | Some sym => Some sym
    | None => syms !! k
    end.
Proof.
  induction l as [|sym l IH] using rev_ind; [done|].
  rewrite fold_left_app, filter_app. simpl.
  destruct (decide (sym_fqn sym = k)) as [<-|Hk].
  - rewrite filter_cons_True, filter_nil by done.
    by rewrite last_snoc, lookup_insert_eq.
  - rewrite filter_cons_False, filter_nil by done.
    by rewrite app_nil_r, lookup_insert_ne.
Qed.

End symbol_table.

(** Under an FQN the symbol table holds the last symbol of that FQN that
    the index lists, and nothing when the index lists none: a later symbol
    replaces an earlier one of the same FQN. *)
Theorem symbol_index_last_wins (idx : AstIndex) (k : string) :
  _build_symbol_index idx !! k
    = last (filter (λ sym, sym_fqn sym = k) (indexed_symbols idx)).
Proof.
  rewrite build_symbol_index_symbols, fold_insert_last.
  by destruct (last _).
Qed.

(** [has_type] is true exactly where [get_class] finds a class, and is
    [None], not [False], where the table has no symbol. *)
Theorem has_type_get_class (self : JsonASTProvider) (fqn : string) :
  (has_type self fqn = Some true ↔ is_Some (get_class self fqn)) ∧
  (has_type self fqn = None ↔ symbols self !! fqn = None).
Proof.
  unfold has_type, get_class, is_Some.
  destruct (symbols self !! fqn) as [sym|];
    [destruct (is_class_kind (sym_kind sym))|]; naive_solver.
Qed.

(** ** Argument checking and calls *)

Section calls.
Implicit Types (ctx : DSLContext) (args : list pyval).

Lemma check_each_first_mismatch i params1 param params2 args1 arg args2 ctx
    where_ actual :
  Forall2 (λ p a, infer_arg_type a ctx = Return (Some (param_type p)))
    params1 args1 →
  infer_arg_type arg ctx = Return actual → actual ≠ Some (param_type param) →
  check_each i (zip (params1 ++ param :: params2) (args1 ++ arg :: args2))
      ctx where_
    = Raise (TypeMismatch where_ (i + length params1) (param_type param) actual).
Proof.
  intros Hpre Harg Hne. revert i.
  induction Hpre as [|p a ps1 as1 Hpa Hpre IH]; intros i; simpl.
  - rewrite Harg. unfold is_type_compatible.
    rewrite bool_decide_eq_false_2 by done. simpl. by rewrite Nat.add_0_r.
  - rewrite Hpa. unfold is_type_compatible.
    rewrite bool_decide_eq_true_2 by done. simpl.
    by rewrite IH, Nat.add_succ_r.
Qed.

Lemma find_method_first self class_fqn_ cls pre m post :
  get_class self class_fqn_ = Some (SymClass cls) →
  class_methods cls = pre ++ m :: post →
  Forall (λ m', meth_fqn m' ≠ meth_fqn m) pre →
  find_method self class_fqn_ (meth_fqn m) = Some m.
Proof.
  intros Hcls Hm Hpre. unfold find_method. rewrite Hcls, Hm, filter_app.
  rewrite filter_cons_True by done. clear Hm.
  assert (filter (λ m', meth_fqn m' = meth_fqn m) pre = []) as ->; [|done].
  induction Hpre as [|m' pre Hm' Hpre IH]; [done|].
  rewrite filter_cons_False by done. apply IH.
Qed.

Lemma validate_call_bound target method args result ctx ty :
  variables ctx !! target = Some (Some ty) → ty ≠ "" →
  validate_call target method args result ctx =
    match find_method (ast ctx) ty method with
    | None => (Raise (MethodNotFound method ty), ctx)
    | Some m =>
        match check_args (meth_params m) args ctx (ty +:+ "::" +:+ method) with
        | Return _ =>
            (Return tt,
             if truthy result
             then set_variable (default "" result) (meth_return_type m) ctx
             else ctx)
        | Raise e => (Raise e, ctx)
        end
    end.
Proof.
  intros Ht Hty. unfold validate_call. unfold_M. rewrite Ht. simpl.
  rewrite bool_decide_eq_false_2 by done. simpl.
  destruct (find_method _ _ _); [|done].
  destruct (check_args _ _ _ _) as [[]|]; [|done].
  by destruct (truthy result).
Qed.

End calls.

(** [check_args] reports the first argument whose inferred type differs
    from its parameter's type, by its 0-based position, with the expected
    and the inferred type; the arguments after it are not looked at. *)
Theorem check_args_first_mismatch (params1 params2 : list Param) (param : Param)
    (args1 args2 : list pyval) (arg : pyval) (ctx : DSLContext)
    (where_ : string) (actual : option string) :
  length params2 = length args2 →
  Forall2 (λ p a, infer_arg_type a ctx = Return (Some (param_type p)))
    params1 args1 →
  infer_arg_type arg ctx = Return actual → actual ≠ Some (param_type param) →
  check_args (params1 ++ param :: params2) (args1 ++ arg :: args2) ctx where_
    = Raise (DSLValidationError
        (where_ +:+ ": arg " +:+ pretty (length params1) +:+ " type mismatch: "
         +:+ "expected " +:+ param_type param +:+ ", got " +:+ str_or_None actual)).
Proof.
  intros Hpost Hpre Harg Hne. unfold check_args.
  pose proof (Forall2_length _ _ _ Hpre) as Hlen.
  rewrite !length_app. simpl.
  rewrite (proj2 (Nat.eqb_eq _ _)) by lia. simpl.
  by rewrite (check_each_first_mismatch 0 _ _ _ _ _ _ _ _ _ Hpre Harg Hne).
Qed.

Lemma check_args_first_mismatch_witness :
  check_args
    [{| param_name := "a"; param_type := "int" |};
     {| param_name := "b"; param_type := "double" |};
     {| param_name := "c"; param_type := "bool" |}]
    [PStr "1"; PStr "x"; PInt 7] (DSLContext_init fruit_provider) "f"
  = Raise (DSLValidationError
      "f: arg 1 type mismatch: expected double, got std::string").
Proof.
  apply (check_args_first_mismatch
    [{| param_name := "a"; param_type := "int" |}]
    [{| param_name := "c"; param_type := "bool" |}]
    {| param_name := "b"; param_type := "double" |}
    [PStr "1"] [PInt 7] (PStr "x") (DSLContext_init fruit_provider) "f"
    (Some "std::string")).
  - reflexivity.
  - repeat constructor.
  - reflexivity.
  - discriminate.
Defined.


(** A variable bound by calling a constructor has the type [None], and a
    later call on it fails with [UnknownVariable] although it is bound. *)
Example call_on_constructor_result :
  validate_steps 0
    [CreateStep "box" "lib::BoxOfFruits" [];
     CallStep "box" "lib::BoxOfFruits::BoxOfFruits" [] (Some "b2");
     CallStep "b2" "lib::BoxOfFruits::count" [] None]
    (DSLContext_init fruit_provider)
  = (Raise (DSLValidationError "Step 2 (call): Unknown variable 'b2'"),
     set_variable "b2" None
       (set_variable "box" (Some "lib::BoxOfFruits")
          (DSLContext_init fruit_provider))).
Proof. by vm_compute. Qed.

(** A Call step looks at one overload only, the first method of the class
    with the FQN: when that one does not accept the string arguments the
    step fails, whatever methods follow it in the class. *)
Theorem validate_call_first_overload_only (target : string)
    (args : list pyval) (result : option string) (ctx : DSLContext)
    (ty : string) (cls : Class) (pre post : list Method) (m : Method) :
  variables ctx !! target = Some (Some ty) → ty ≠ "" →
  get_class (ast ctx) ty = Some (SymClass cls) →
  class_methods cls = pre ++ m :: post →
  Forall (λ m', meth_fqn m' ≠ meth_fqn m) pre →
  Forall is_token args → ¬ accepts m args ctx →
  ∃ msg, validate_call target (meth_fqn m) args result ctx
           = (Raise (DSLValidationError msg), ctx).
Proof.
  intros Ht Hty Hcls Hm Hpre Htok Hno.
  rewrite (validate_call_bound _ _ _ _ _ _ Ht Hty).
  rewrite (find_method_first _ _ _ _ _ _ Hcls Hm Hpre).
  destruct (check_args_tokens m args ctx (ty +:+ "::" +:+ meth_fqn m) Htok)
    as [[Hok _]|[_ [msg ->]]]; [done | by eauto].
Qed.

Lemma validate_call_first_overload_only_witness :
  accepts {| meth_kind := "cxx_method"; meth_name := "put";
             meth_fqn := "lib::Basket::put"; meth_return_type := Some "void";
             meth_params := [{| param_name := "s"; param_type := "std::string" |}] |}
    [PStr "apple"]
    (set_variable "b" (Some "lib::Basket") (DSLContext_init basket_provider)) ∧
  ∃ msg, validate_call "b" "lib::Basket::put" [PStr "apple"] None
           (set_variable "b" (Some "lib::Basket") (DSLContext_init basket_provider))
         = (Raise (DSLValidationError msg),
            set_variable "b" (Some "lib::Basket") (DSLContext_init basket_provider)).
Proof.
  split; [split; [reflexivity | repeat constructor]|].
  refine (validate_call_first_overload_only "b" [PStr "apple"] None
    (set_variable "b" (Some "lib::Basket") (DSLContext_init basket_provider))
    "lib::Basket" Basket
    [{| meth_kind := "constructor"; meth_name := "Basket";
        meth_fqn := "lib::Basket::Basket"; meth_return_type := None;
        meth_params := [] |}]
    [{| meth_kind := "cxx_method"; meth_name := "put";
        meth_fqn := "lib::Basket::put"; meth_return_type := Some "void";
        meth_params := [{| param_name := "s"; param_type := "std::string" |}] |}]
    {| meth_kind := "cxx_method"; meth_name := "put";
       meth_fqn := "lib::Basket::put"; meth_return_type := Some "void";
       meth_params := [{| param_name := "n"; param_type := "int" |}] |}
    _ _ _ _ _ _ _).
  - vm_compute. reflexivity.
  - discriminate.
  - vm_compute. reflexivity.
  - reflexivity.
  - repeat constructor. discriminate.
  - repeat constructor. by exists "apple".
  - intros [_ Hall]. apply Forall2_cons in Hall as [Hhd _].
    vm_compute in Hhd. discriminate.
Defined.

(** ** Assertions *)

Section assertions.
Implicit Types (ctx : DSLContext) (side : pyval).

Lemma check_side_Return side ctx :
  check_side side ctx = Return tt ↔ operand_ok side ctx.
Proof.
  unfold operand_ok, check_side. destruct side as [| | |s| |];
    try (split; [by intros _ ? [=] | done]).
  destruct (startswith_dollar s) eqn:Hd; simpl.
  - case_bool_decide as Hb; simpl.
    + split; [by intros _ ? [= <-] _ | done].
    + split; [done|]. intros H. destruct Hb. by apply (H s).
  - split; [|done]. intros _ ? [= <-] ?. congruence.
Qed.

Lemma check_side_Raise side ctx e :
  check_side side ctx = Raise e →
  ∃ s, side = PStr s ∧ startswith_dollar s = true
       ∧ variables ctx !! drop_first s = None ∧ e = UnknownReference s.
Proof.
  unfold check_side. destruct side as [| | |s| |]; try done.
  destruct (startswith_dollar s) eqn:Hd; simpl; [|done].
  case_bool_decide as Hb; simpl; [done|]. intros [= <-].
  exists s. split_and!; [done | done | by apply eq_None_not_Some | done].
Qed.

End assertions.

(** An Assert step validates exactly when each operand that is a string
    starting with a dollar sign names, after the sign, a bound variable;
    other operands, unbound names among them, are not checked.  When it
    fails, it fails with [UnknownReference] for such an operand, and the
    context is unchanged. *)
Theorem validate_assert_operands (expr : AssertExpr) (ctx : DSLContext) :
  (validate_assert expr ctx = (Return tt, ctx) ↔
     operand_ok (left expr) ctx ∧ operand_ok (right expr) ctx) ∧
  (∀ e ctx', validate_assert expr ctx = (Raise e, ctx') →
     ctx' = ctx ∧
     ∃ s, (left expr = PStr s ∨ right expr = PStr s) ∧
          startswith_dollar s = true ∧
          variables ctx !! drop_first s = None ∧ e = UnknownReference s).
Proof.
  unfold validate_assert. unfold_M.
  rewrite <- !check_side_Return.
  destruct (check_side (left expr) ctx) as [[]|el] eqn:Hl;
    [destruct (check_side (right expr) ctx) as [[]|er] eqn:Hr|].
  - split; [done | by intros ? ? [=]].
  - split; [split; [done | by intros [_ [=]]]|].
    intros e ctx' [= <- <-]. split; [done|].
    destruct (check_side_Raise _ _ _ Hr) as (s & ? & ? & ? & ?). by eauto 10.
  - split; [split; [done | by intros [[=] _]]|].
    intros e ctx' [= <- <-]. split; [done|].
    destruct (check_side_Raise _ _ _ Hl) as (s & ? & ? & ? & ?). by eauto 10.
Qed.

(** ** Plans that validate *)

Section validated.
Implicit Types (ctx : DSLContext) (l : list Step).

Lemma try_constructors_Return ctors id type args ctx ctx' :
  try_constructors ctors id type args ctx = (Return tt, ctx') →
  ctx' = set_variable id (Some type) ctx.
Proof.
  induction ctors as [|ctor rest IH]; simpl; unfold_M; [done|].
  destruct (check_args _ _ _ _) as [[]|[]]; simpl; try done.
  by intros [= <-].
Qed.

Lemma validate_step_Return step ctx ctx' :
  validate_step step ctx = (Return tt, ctx') →
  can_validate step ∧
  dom (variables ctx') = dom (variables ctx) ∪ list_to_set (bound_names step).
Proof.
  destruct step as [id type args|target method args result|target field result
                   |expr|n|o]; simpl.
  - unfold validate_create. unfold_M.
    destruct (get_constructors _ _); [|done].
    intros ->%try_constructors_Return. split; [done|].
    simpl. rewrite dom_insert_L. set_solver.
  - unfold validate_call. unfold_M.
    destruct (truthy (mjoin _)); simpl; [|done].
    destruct (find_method _ _ _); [|done].
    destruct (check_args _ _ _ _) as [[]|]; [|done].
    destruct (truthy result); intros [= <-]; (split; [done|]); simpl.
    + rewrite dom_insert_L. set_solver.
    + set_solver.
  - unfold validate_get.
    destruct (variables ctx !! target) as [ty|]; [|done].
    destruct (ty ≫= get_class (ast ctx)); [|done].
    by destruct (negb _).
  - intros H.
    pose proof (validate_assert_state expr ctx) as Hs. rewrite H in Hs.
    simpl in Hs. subst. split; [done | set_solver].
  - intros H.
    pose proof (validate_expect_fail_state n ctx) as Hs. rewrite H in Hs.
    simpl in Hs. subst. split; [done | set_solver].
  - by unfold_M.
Qed.

Lemma validate_steps_Return idx l ctx ctx' :
  validate_steps idx l ctx = (Return tt, ctx') →
  Forall can_validate l ∧
  dom (variables ctx') = dom (variables ctx) ∪ list_to_set (l ≫= bound_names).
Proof.
  revert idx ctx. induction l as [|step l IH]; intros idx ctx.
  - simpl. unfold_M. intros [= <-]. split; [done | set_solver].
  - rewrite validate_steps_cons.
    destruct (validate_step step ctx) as [[[]|e] ctx1] eqn:Hs; [|done].
    apply validate_step_Return in Hs as [Hok Hdom].
    intros [Hall Hdom']%IH. split; [by constructor|].
    rewrite Hdom', Hdom. simpl. rewrite list_to_set_app_L. set_solver.
Qed.

End validated.

(** A plan that validates has no Get step, and the variables bound at the
    end of its run are exactly the [id]s of its Create steps and the
    non-empty [result]s of its Call steps. *)
Theorem validated_plan_bindings (plan : TestPlan) (a : JsonASTProvider)
    (ctx : DSLContext) :
  validate_plan plan a = (Return tt, ctx) →
  Forall can_validate (steps plan) ∧
  dom (variables ctx) = list_to_set (steps plan ≫= bound_names).
Proof.
  unfold validate_plan. intros [Hall Hdom]%validate_steps_Return.
  split; [done|]. rewrite Hdom. simpl. set_solver.
Qed.

Lemma validated_plan_bindings_witness :
  Forall can_validate (steps json_plan) ∧
  dom (variables
         (set_variable "count" (Some "int")
            (set_variable "fruit_1" (Some "lib::Fruit")
               (set_variable "fruit_0" (Some "lib::Fruit")
                  (set_variable "box" (Some "lib::BoxOfFruits")
                     (DSLContext_init fruit_provider))))))
    = list_to_set (steps json_plan ≫= bound_names).
Proof.
  apply (validated_plan_bindings json_plan fruit_provider).
  vm_compute. reflexivity.
Defined.

(** ** Parsing that succeeds *)

Section parsed.
Implicit Types (data d : gmap string pyval) (o : StepObject).

Lemma dom_three_size d :
  is_Some (d !! "op") → is_Some (d !! "left") → is_Some (d !! "right") →
  (size d = 3 ↔ dom d = ({["op"; "left"; "right"]} : gset string)).
Proof.
  intros Ho Hl Hr.
  assert (({["op"; "left"; "right"]} : gset string) ⊆ dom d) as Hsub.
  { intros k Hk. apply elem_of_dom.
    apply elem_of_union in Hk as [Hk|Hk]; [|by apply elem_of_singleton in Hk as ->].
    apply elem_of_union in Hk as [Hk|Hk]; by apply elem_of_singleton in Hk as ->. }
  assert (size ({["op"; "left"; "right"]} : gset string) = 3) as H3
    by (by vm_compute).
  rewrite <- size_dom. split.
  - intros Hs. symmetry. apply set_subseteq_size_eq; [done|]. lia.
  - by intros ->.
Qed.

Lemma AssertExpr_init_Return e expr :
  AssertExpr_init e = Return expr ↔
  ∃ d, e = PDict d ∧ dom d = {["op"; "left"; "right"]} ∧
       d !! "op" = Some (expr_op expr) ∧ d !! "left" = Some (left expr) ∧
       d !! "right" = Some (right expr).
Proof.
  destruct expr as [o l r]. unfold AssertExpr_init. simpl. split.
  - destruct e as [| | | | |d]; try done.
    destruct (d !! "op") as [o'|] eqn:Ho; [|by repeat case_match].
    destruct (d !! "left") as [l'|] eqn:Hl; [|by repeat case_match].
    destruct (d !! "right") as [r'|] eqn:Hr; [|by repeat case_match].
    case_bool_decide as Hs; [|done]. intros [= -> -> ->].
    exists d. split_and!; try done.
    apply (proj1 (dom_three_size d (mk_is_Some _ _ Ho) (mk_is_Some _ _ Hl)
                    (mk_is_Some _ _ Hr)) Hs).
  - intros (d & -> & Hd & Ho & Hl & Hr). rewrite Ho, Hl, Hr.
    rewrite bool_decide_eq_true_2; [done|].
    apply (proj2 (dom_three_size d (mk_is_Some _ _ Ho) (mk_is_Some _ _ Hl)
                    (mk_is_Some _ _ Hr)) Hd).
Qed.

End parsed.

(** [parse_step] returns exactly on a description that has no entry named
    [self], whose [op] is one of the five strings and which has the keys its
    step class reads (an [expr] being a dict of exactly [op], [left] and
    [right]); the object returned holds the entries as they are, [[]] for
    absent [args], [None] for an absent [result]; every other key of the
    description is ignored. *)
Theorem parse_step_returns (data : gmap string pyval) (o : StepObject) :
  parse_step data = Return o ↔ parsed_as data o.
Proof.
  unfold parsed_as, parse_step, get_default, call_with_keywords. split.
  - destruct (data !! "op") as [[| | |s| |]|] eqn:Hop; simpl; try done.
    rewrite STEP_CLASSES_lookup.
    destruct (data !! "self") eqn:Hself; [by repeat case_decide|].
    intros H. split; [done|]. revert H.
    repeat (case_decide; [subst s|]); [..|done].
    + unfold CreateStep_init, getitem, mbind, outcome_bind.
      destruct (data !! "id") as [i|]; [|done].
      destruct (data !! "type") as [t|]; [|done].
      intros [= <-]. left. by eauto 10.
    + unfold CallStep_init, getitem, mbind, outcome_bind.
      destruct (data !! "target") as [t|]; [|done].
      destruct (data !! "method") as [m|]; [|done].
      intros [= <-]. right; left. by eauto 10.
    + unfold GetStep_init, getitem, mbind, outcome_bind.
      destruct (data !! "target") as [t|]; [|done].
      destruct (data !! "field") as [f|]; [|done].
      destruct (data !! "result") as [r|]; [|done].
      intros [= <-]. do 2 right; left. by eauto 10.
    + unfold AssertStep_init, getitem, mbind, outcome_bind.
      destruct (data !! "expr") as [e|]; [|done].
      destruct (AssertExpr_init e) as [expr|] eqn:He; [|done].
      intros [= <-]. apply AssertExpr_init_Return in He
        as (d & -> & Hd & Ho & Hl & Hr).
      do 3 right; left. split; [done|].
      exists d, (expr_op expr), (left expr), (right expr).
      split_and!; try done. by destruct expr.
    + unfold ExpectFailStep_init, getitem, mbind, outcome_bind.
      destruct (data !! "step") as [n|]; [|done].
      intros [= <-]. do 4 right. by eauto.
  - intros [-> [(-> & i & t & Hi & Ht & ->)
           |[(-> & t & m & Ht & Hm & ->)
           |[(-> & t & f & r & Ht & Hf & Hr & ->)
           |[(-> & d & op & l & r & He & Hd & Ho & Hl & Hr & ->)
           |(-> & n & Hn & ->)]]]]]; simpl; rewrite STEP_CLASSES_lookup; simpl.
    + unfold CreateStep_init, getitem. by rewrite Hi, Ht.
    + unfold CallStep_init, getitem. by rewrite Ht, Hm.
    + unfold GetStep_init, getitem. by rewrite Ht, Hf, Hr.
    + assert (AssertExpr_init (PDict d)
                = Return {| expr_op := op; left := l; right := r |}) as Hx
        by (apply AssertExpr_init_Return; eauto 10).
      unfold AssertStep_init, getitem, mbind, outcome_bind. by rewrite He, Hx.
    + unfold ExpectFailStep_init, getitem. by rewrite Hn.
Qed.

Section plans.
Implicit Types (l : list pyval) (os : list StepObject).

Lemma parse_items_Return l os :
  parse_items l = Return os ↔ Forall2 (λ s o, parse_item s = Return o) l os.
Proof.
  revert os. induction l as [|s l IH]; intros os; simpl.
  - split; [intros [= <-]; constructor | by intros ->%Forall2_nil_inv_l].
  - unfold mbind, outcome_bind. split.
    + destruct (parse_item s) as [o|] eqn:Hs; [|done].
      destruct (parse_items l) as [os'|]; [|done].
      intros [= <-]. constructor; [done | by apply IH].
    + intros (o & os' & Ho & Hos & ->)%Forall2_cons_inv_l.
      rewrite Ho. by rewrite (proj2 (IH os') Hos).
Qed.

Lemma parse_items_Raise pre s post os e :
  parse_items pre = Return os → parse_item s = Raise e →
  parse_items (pre ++ s :: post) = Raise e.
Proof.
  revert os. induction pre as [|s' pre IH]; intros os; simpl.
  - intros _ ->. done.
  - unfold mbind, outcome_bind.
    destruct (parse_item s') as [o|]; [|done].
    destruct (parse_items pre) as [os'|] eqn:Hpre; [|done].
    intros _ Hs. by rewrite (IH os' eq_refl Hs).
Qed.

End plans.

Lemma parse_item_Return (s : pyval) (o : StepObject) :
  parse_item s = Return o ↔ ∃ d, s = PDict d ∧ parse_step d = Return o.
Proof.
  unfold parse_item. destruct s as [| | | | |d];
    try (split; [done | by intros (? & [=] & _)]).
  split; [by eauto | by intros (? & [= <-] & ?)].
Qed.

(** [parse_test_plan] fails with [MalformedPlan] when ["test"] or ["steps"]
    is absent.  On a list of steps it returns exactly when every element is
    a dict that [parse_step] parses, and then the plan holds the parsed
    steps in the order and number of the list; it raises the exception of
    the first element that does not parse, as it is. *)
Theorem parse_test_plan_steps (data : gmap string pyval) :
  (data !! "test" = None ∨ data !! "steps" = None →
     parse_test_plan data = Raise MalformedPlan) ∧
  (∀ t l, data !! "test" = Some t → data !! "steps" = Some (PList l) →
     (∀ plan, parse_test_plan data = Return plan ↔
        plan_test plan = t ∧
        Forall2 (λ s o, ∃ d, s = PDict d ∧ parse_step d = Return o)
          l (plan_steps plan)) ∧
     (∀ pre s post os e,
        l = pre ++ s :: post → parse_items pre = Return os →
        parse_item s = Raise e → parse_test_plan data = Raise e)).
Proof.
  unfold parse_test_plan. split.
  - intros [-> | ->]; [done | by destruct (data !! "test")].
  - intros t l -> ->. simpl. unfold mbind, outcome_bind. split.
    + intros [t' os]. simpl.
      assert (Forall2 (λ s o, ∃ d, s = PDict d ∧ parse_step d = Return o) l os
              ↔ parse_items l = Return os) as ->.
      { rewrite parse_items_Return.
        split; intros H; (eapply Forall2_impl; [exact H|]);
          intros s o Hso; by apply parse_item_Return. }
      destruct (parse_items l) as [os'|]; [|by split; [|intros [_ [=]]]].
      split; [by intros [= <- <-] | by intros [-> [= ->]]].
    + intros pre s post os e -> Hpre Hs.
      by rewrite (parse_items_Raise _ _ _ _ _ Hpre Hs).
Qed.

(** * Further properties of the search *)

(** Vectors of different lengths are compared on the components they both
    have: what the longer one has beyond the length of the shorter one is
    ignored, and no exception reports the mismatch. *)
Theorem cosine_similarity_truncates (a b : list float) :
  cosine_similarity a b
    = cosine_similarity (take (length b) a) (take (length a) b).
Proof. unfold cosine_similarity. by rewrite zip_with_take_both. Qed.

(** ** The hits of the semantic search *)



(** The hybrid search returns exactly when the cosine of the query with
    every vector of the store is computed without an exception, whatever
    [top_k] and the query text are: one vector on which the division
    raises makes every search raise. *)
Theorem semantic_search_returns_iff (self : CodebaseContext)
    (query_embedding : list float) (query : string) (top_k : Z) :
  (∃ hits, semantic_search self query_embedding query top_k = Return hits) ↔
  Forall (λ item, ∃ v, cosine_similarity query_embedding (embedding item) = Return v)
    (embeddings self).
Proof.
  rewrite <- score_all_returns.
  unfold semantic_search, raw_semantic_search, mbind, outcome_bind.
  destruct (score_all _ _) as [scored|]; split; try (by eauto);
    by intros [? [=]].
Qed.

Section distinct.

Lemma final_hits_sublist (T : odict Entry) :
  (∀ kv, kv ∈ T → e_fqn kv.2 = kv.1) →
  fqn <$> omap (λ kv, final_hit kv.2) T `sublist_of` T.*1.
Proof.
  induction T as [|[k r] T IH]; intros HT; [done|].
  rewrite fmap_cons. simpl.
  assert (e_fqn r = k) as Hk by (apply (HT (k, r)); left).
  assert (fqn <$> omap (λ kv, final_hit kv.2) T `sublist_of` T.*1) as Hrest.
  { apply IH. intros kv Hkv. apply HT. by right. }
  unfold final_hit at 1. destruct (fused r =? 0)%float; simpl.
  - by apply sublist_cons.
  - rewrite Hk. by apply sublist_skip.
Qed.

End distinct.

(** No FQN occurs twice among the hits of the hybrid search. *)
Theorem semantic_search_distinct_fqns (self : CodebaseContext)
    (query_embedding : list float) (query : string) (top_k : Z)
    (hits : list Hit) :
  semantic_search self query_embedding query top_k = Return hits →
  NoDup (fqn <$> hits).
Proof.
  unfold semantic_search, mbind, outcome_bind.
  destruct (raw_semantic_search _ _ _) as [semantic_hits|]; [|done].
  intros [= <-].
  destruct (fuse_table self (tokenize_query query)
              (semantic_map_of semantic_hits)
              (semantic_map_of_NoDup semantic_hits)) as [Hnd Hrows].
  set (T := fuse self (tokenize_query query) (semantic_map_of semantic_hits)) in *.
  assert (NoDup (fqn <$> omap (λ kv, final_hit kv.2) T)) as Hfinal.
  { apply (sublist_NoDup _ (T.*1)); [done|]. apply final_hits_sublist.
    intros [k r] Hkr. specialize (Hrows k).
    rewrite (od_lookup_elem_of _ _ _ Hnd Hkr) in Hrows. by destruct Hrows. }
  apply (sublist_NoDup _ (fqn <$> sort_desc score (omap (λ kv, final_hit kv.2) T))).
  - by rewrite sort_desc_perm.
  - apply fmap_sublist. unfold slice_to. case_match; apply sublist_take.
Qed.

(** The class [lib::BoxOfFruits] is met twice, by its name and by its
    vector, and so is the method [add]; each is one hit among the six. *)
Lemma semantic_search_distinct_fqns_witness :
  semantic_search orchard_context [1; 0]%float "add fruit" 10
    = Return
        [{| fqn := "lib::BoxOfFruits"; kind := "class_decl";
            score := 0.85; sources := ["semantic"; "name"] |};
         {| fqn := "lib::BoxOfFruits::add"; kind := "cxx_method";
            score := 0.795; sources := ["semantic"; "name"] |};
         {| fqn := "lib::Fruit"; kind := "class_decl";
            score := 0.15; sources := ["name"] |};
         {| fqn := "lib::Fruit::Fruit"; kind := "constructor";
            score := 0.15; sources := ["name"] |};
         {| fqn := "lib::BoxOfFruits::BoxOfFruits"; kind := "constructor";
            score := 0.15; sources := ["name"] |};
         {| fqn := "lib::BoxOfFruits::count"; kind := "cxx_method";
            score := -0.55; sources := ["name"] |}] ∧
  NoDup ["lib::BoxOfFruits"; "lib::BoxOfFruits::add"; "lib::Fruit";
         "lib::Fruit::Fruit"; "lib::BoxOfFruits::BoxOfFruits";
         "lib::BoxOfFruits::count"].
Proof.
  split; [vm_compute; reflexivity|].
  apply (semantic_search_distinct_fqns orchard_context [1; 0]%float
           "add fruit" 10
           [{| fqn := "lib::BoxOfFruits"; kind := "class_decl";
               score := 0.85; sources := ["semantic"; "name"] |};
            {| fqn := "lib::BoxOfFruits::add"; kind := "cxx_method";
               score := 0.795; sources := ["semantic"; "name"] |};
            {| fqn := "lib::Fruit"; kind := "class_decl";
               score := 0.15; sources := ["name"] |};
            {| fqn := "lib::Fruit::Fruit"; kind := "constructor";
               score := 0.15; sources := ["name"] |};
            {| fqn := "lib::BoxOfFruits::BoxOfFruits"; kind := "constructor";
               score := 0.15; sources := ["name"] |};
            {| fqn := "lib::BoxOfFruits::count"; kind := "cxx_method";
               score := -0.55; sources := ["name"] |}]).
  vm_compute. reflexivity.
Defined.

(** ** Tokens *)

Section tokenizing.
Implicit Types (c : ascii) (s w : string) (cur : option string).

Lemma ascii_lower_token c :
  is_word_char c = true → is_token_char (ascii_lower c) = true.
Proof. by destruct c as [[] [] [] [] [] [] [] []]; vm_compute. Qed.

Lemma ascii_lower_start c :
  is_word_start c = true → ascii_isdigit (ascii_lower c) = false.
Proof. by destruct c as [[] [] [] [] [] [] [] []]; vm_compute. Qed.

Lemma ascii_lower_idemp c : ascii_lower (ascii_lower c) = ascii_lower c.
Proof. by destruct c as [[] [] [] [] [] [] [] []]; vm_compute. Qed.

Lemma is_word_start_lower c : is_word_start (ascii_lower c) = is_word_start c.
Proof. by destruct c as [[] [] [] [] [] [] [] []]; vm_compute. Qed.

Lemma is_word_char_lower c : is_word_char (ascii_lower c) = is_word_char c.
Proof. by destruct c as [[] [] [] [] [] [] [] []]; vm_compute. Qed.

Lemma is_word_char_start c : is_word_char c = false → is_word_start c = false.
Proof. unfold is_word_char. by intros [? _]%orb_false_iff. Qed.

Lemma lower_idemp s : lower (lower s) = lower s.
Proof. induction s as [|c s IH]; simpl; by rewrite ?ascii_lower_idemp, ?IH. Qed.

Lemma lower_app s w : lower (s +:+ w) = lower s +:+ lower w.
Proof. induction s as [|c s IH]; simpl; by rewrite ?IH. Qed.

Lemma chars_lower s : chars (lower s) = ascii_lower <$> chars s.
Proof. induction s as [|c s IH]; simpl; by rewrite ?IH. Qed.

Lemma is_word_snoc w c :
  is_word w → is_word_char c = true → is_word (w +:+ String c EmptyString).
Proof.
  destruct w as [|c' w]; [done|]. intros [Hs Hall] Hc. split; [done|].
  change (String c' w +:+ String c "") with (String c' w +:+ String c "").
  rewrite chars_app. apply Forall_app. split; [done | by repeat constructor].
Qed.

Lemma findall_words_are_words cur s :
  (∀ w, cur = Some w → is_word w) → Forall is_word (findall_words cur s).
Proof.
  revert cur. induction s as [|c s IH]; intros cur Hcur; simpl.
  - destruct cur as [w|]; [|done]. constructor; [by apply Hcur | done].
  - destruct cur as [w|].
    + destruct (is_word_char c) eqn:Hc.
      * apply IH. intros ? [= <-]. by apply is_word_snoc; [apply Hcur|].
      * constructor; [by apply Hcur|]. by apply IH.
    + destruct (is_word_start c) eqn:Hc; apply IH; [|done].
      intros ? [= <-]. split; [done|]. repeat constructor.
      unfold is_word_char. by rewrite Hc.
Qed.

Lemma lower_word w : is_word w → well_formed_token (lower w).
Proof.
  destruct w as [|c w]; [done|]. intros [Hs Hall]. split.
  - by apply ascii_lower_start.
  - change (String (ascii_lower c) (lower w)) with (lower (String c w)).
    rewrite chars_lower. apply Forall_fmap.
    eapply Forall_impl; [exact Hall|]. intros c'. apply ascii_lower_token.
Qed.

Lemma findall_words_lower cur s :
  findall_words (lower <$> cur) (lower s) = lower <$> findall_words cur s.
Proof.
  revert cur. induction s as [|c s IH]; intros cur; simpl.
  - by destruct cur.
  - destruct cur as [w|]; simpl.
    + rewrite is_word_char_lower. destruct (is_word_char c).
      * rewrite <- IH. simpl. by rewrite lower_app.
      * rewrite fmap_cons. f_equal. apply (IH None).
    + rewrite is_word_start_lower. destruct (is_word_start c).
      * apply (IH (Some (String c EmptyString))).
      * apply (IH None).
Qed.

Lemma findall_words_separator cur s1 c s2 :
  is_word_char c = false →
  findall_words cur (s1 +:+ String c s2)
    = findall_words cur s1 ++ findall_words None s2.
Proof.
  intros Hc. revert cur. induction s1 as [|c1 s1 IH]; intros cur; simpl.
  - rewrite Hc, (is_word_char_start c Hc). by destruct cur.
  - destruct cur as [w|].
    + destruct (is_word_char c1); by rewrite IH.
    + destruct (is_word_start c1); by rewrite IH.
Qed.

End tokenizing.

(** Every token of a query is not empty, is made of lowercase letters,
    digits and underscores, and does not start with a digit. *)
Theorem tokenize_query_tokens (text : string) :
  Forall well_formed_token (tokenize_query text).
Proof.
  unfold tokenize_query. apply Forall_fmap.
  eapply Forall_impl; [by apply findall_words_are_words|].
  intros w. apply lower_word.
Qed.

(** The tokens of a query do not depend on the case of its letters. *)
Theorem tokenize_query_case (text : string) :
  tokenize_query (lower text) = tokenize_query text.
Proof.
  unfold tokenize_query.
  pose proof (findall_words_lower None text) as Hl. simpl in Hl.
  rewrite Hl, <- list_fmap_compose.
  apply list_fmap_ext. intros _ w _. apply lower_idemp.
Qed.

(** A character that is no letter, digit or underscore separates tokens:
    the tokens of two texts joined by it are those of the first followed by
    those of the second. *)
Theorem tokenize_query_separator (text1 text2 : string) (c : ascii) :
  is_word_char c = false →
  tokenize_query (text1 +:+ String c text2)
    = tokenize_query text1 ++ tokenize_query text2.
Proof.
  intros Hc. unfold tokenize_query.
  by rewrite findall_words_separator, fmap_app.
Qed.

Lemma tokenize_query_separator_witness :
  tokenize_query ("Fruit box" +:+ String " " "3 Apples")
    = tokenize_query "Fruit box" ++ tokenize_query "3 Apples".
Proof. apply tokenize_query_separator. reflexivity. Defined.

(** ** The companion queries *)

Section companions.
Implicit Types (k : string) (idx : AstIndex).

Lemma head_filter_snoc {A} (P : A → Prop) `{!∀ x, Decision (P x)}
    (l : list A) (x : A) :
  head (filter P (l ++ [x])) =
    match head (filter P l) with
    | Some y => Some y
    | None => if decide (P x) then Some x else None
    end.
Proof.
  rewrite filter_app, head_app.
  destruct (head (filter P l)); [done|].
  rewrite filter_cons, filter_nil. by destruct (decide (P x)).
Qed.

Lemma search_by_name_table fragment (symbols : list SymbolView) :
  let T := fold_left (add_name_match fragment) symbols [] in
  NoDup T.*1 ∧
  ∀ k, od_lookup k T =
         (λ symbol, (k, sv_kind symbol)) <$>
           head (filter (λ symbol, sv_fqn symbol = k
                                   ∧ name_matches fragment symbol = true)
                   symbols).
Proof.
  induction symbols as [|symbol symbols IH] using rev_ind.
  - split; [constructor | done].
  - rewrite fold_left_app. cbn [fold_left]. destruct IH as [Hnd IH].
    set (T := fold_left (add_name_match fragment) symbols []) in *.
    unfold add_name_match. fold (name_matches fragment symbol).
    destruct (name_matches fragment symbol) eqn:Hm.
    + split; [by apply od_setdefault_NoDup|].
      intros k. rewrite od_lookup_setdefault, IH, head_filter_snoc.
      destruct (head (filter _ symbols)); simpl; [done|].
      destruct (decide (sv_fqn symbol = k)) as [<-|Hk].
      * by rewrite decide_True.
      * rewrite decide_False; [done | by intros [? _]].
    + split; [done|]. intros k. rewrite IH, head_filter_snoc.
      destruct (head (filter _ symbols)); simpl; [done|].
      rewrite decide_False; [done|]. intros [_ ?]. congruence.
Qed.

Lemma first_match_app {A B} (f : A → option B) (l1 l2 : list A) :
  first_match f (l1 ++ l2) =
    match first_match f l1 with
    | Some b => Some b
    | None => first_match f l2
    end.
Proof.
  induction l1 as [|x l1 IH]; simpl; [done|]. by destruct (f x).
Qed.

Lemma first_match_bind {A B} (P : B → Prop) `{!∀ x, Decision (P x)}
    (g : A → list B) (l : list A) :
  first_match (λ x, head (filter P (g x))) l = head (filter P (l ≫= g)).
Proof.
  induction l as [|x l IH]; simpl; [done|].
  rewrite filter_app, head_app, IH. by destruct (head (filter P (g x))).
Qed.

Lemma first_match_functions k (fns : list Method) :
  first_match
    (λ fn, if decide (k = meth_fqn fn) then Some (SymFunction fn) else None) fns
  = head (filter (λ sym, sym_fqn sym = k) (SymFunction <$> fns)).
Proof.
  induction fns as [|fn fns IH]; [done|].
  rewrite fmap_cons, filter_cons. cbn [first_match sym_fqn].
  destruct (decide (k = meth_fqn fn)) as [->|Hk].
  - by rewrite decide_True.
  - by rewrite decide_False.
Qed.

Lemma get_symbol_in_class_head k cls :
  get_symbol_in_class k cls
    = head (filter (λ sym, sym_fqn sym = k) (class_symbols cls)).
Proof.
  unfold get_symbol_in_class, class_symbols. rewrite filter_cons. simpl.
  destruct (decide (k = class_fqn cls)) as [->|Hk].
  - by rewrite decide_True.
  - rewrite decide_False by done. apply first_match_functions.
Qed.

Lemma get_symbol_in_file_head k file :
  get_symbol_in_file k file
    = head (filter (λ sym, sym_fqn sym = k) (file_symbols file)).
Proof.
  unfold get_symbol_in_file, file_symbols.
  rewrite filter_app, head_app, first_match_functions.
  rewrite <- (first_match_bind (λ sym, sym_fqn sym = k) class_symbols).
  assert (first_match (get_symbol_in_class k) (classes file)
          = first_match
              (λ cls, head (filter (λ sym, sym_fqn sym = k) (class_symbols cls)))
              (classes file)) as ->; [|done].
  induction (classes file) as [|cls l IH]; simpl; [done|].
  by rewrite get_symbol_in_class_head, IH.
Qed.

Lemma get_symbol_head (self : CodebaseContext) k :
  get_symbol self k
    = head (filter (λ sym, sym_fqn sym = k) (indexed_symbols (ast_index self))).
Proof.
  unfold get_symbol, indexed_symbols.
  rewrite <- (first_match_bind (λ sym, sym_fqn sym = k) file_symbols).
  induction ((ast_index self).*2) as [|file l IH]; simpl; [done|].
  by rewrite get_symbol_in_file_head, IH.
Qed.


End companions.

(** [search_by_name] maps an FQN to the [fqn] and [kind] of the first
    symbol of that FQN whose name contains the fragment, case ignored, and
    has no entry for an FQN without such a symbol. *)
Theorem search_by_name_lookup (self : CodebaseContext) (fragment k : string) :
  od_lookup k (search_by_name self fragment) =
    (λ symbol, (k, sv_kind symbol)) <$>
      head (filter (λ symbol, sv_fqn symbol = k
                              ∧ name_matches fragment symbol = true)
              (walk_symbols (ast_index self))).
Proof. apply search_by_name_table. Qed.

(** The result of [search_by_name] does not depend on the case of the
    letters of the fragment. *)
Theorem search_by_name_case (self : CodebaseContext) (fragment : string) :
  search_by_name self (lower fragment) = search_by_name self fragment.
Proof.
  unfold search_by_name. f_equal.
  unfold add_name_match. by rewrite lower_idemp.
Qed.

(** [get_symbol] returns the first symbol of the FQN that the index lists,
    a class before its methods and the classes of a file before its
    functions, and [None] when the index lists none. *)
Theorem get_symbol_first (self : CodebaseContext) (k : string) :
  get_symbol self k
    = head (filter (λ sym, sym_fqn sym = k) (indexed_symbols (ast_index self))).
Proof. apply get_symbol_head. Qed.

(** [get_symbol] of the search and the symbol table of the validator know
    the same FQNs; where the index lists an FQN once they hold the same
    symbol, and where it lists it more than once the search holds the
    first and the table the last. *)
Theorem get_symbol_and_symbol_table (self : CodebaseContext) (k : string) :
  (get_symbol self k = None ↔ _build_symbol_index (ast_index self) !! k = None) ∧
  (∀ sym, filter (λ sym, sym_fqn sym = k) (indexed_symbols (ast_index self)) = [sym] →
     get_symbol self k = Some sym ∧
     _build_symbol_index (ast_index self) !! k = Some sym).
Proof.
  rewrite get_symbol_head, build_symbol_index_symbols, fold_insert_last.
  destruct (filter _ (indexed_symbols (ast_index self))) as [|sym l] eqn:Hf.
  - simpl. split; [done | by intros ? [=]].
  - split.
    + simpl. split; [done|].
      destruct (last (sym :: l)) eqn:Hl; [done|].
      by apply last_None in Hl.
    + by intros sym' [= -> ->].
Qed.



(** ** Filters *)

(** [apply_filters] keeps the order of the results and drops some; applying
    a filter twice is applying it once; and filtering by kinds and then by
    namespace prefix is filtering by both at once. *)
Theorem apply_filters_compose (results : list Hit) (flt : option Filter)
    (ks : option (list string)) (p : option string) :
  apply_filters results flt `sublist_of` results ∧
  apply_filters (apply_filters results flt) flt = apply_filters results flt ∧
  apply_filters
    (apply_filters results (Some {| kinds := ks; namespace_prefix := None |}))
    (Some {| kinds := None; namespace_prefix := p |})
  = apply_filters results (Some {| kinds := ks; namespace_prefix := p |}).
Proof.
  split_and!.
  - destruct flt; simpl; [apply sublist_filter | done].
  - destruct flt; simpl; [|done]. apply list_filter_filter_l. done.
  - simpl. rewrite list_filter_filter. apply list_filter_iff.
    intros r. unfold passes. simpl. rewrite andb_true_r. simpl.
    rewrite andb_true_iff. tauto.
Qed.

(** ** Created variables as arguments *)

(** After a Create step that validates, its [id] is inferred to have the
    step's type when it is used as an argument, whatever the identifier
    looks like: a variable named like a number or like [true] hides the
    literal. *)
Theorem created_variable_is_inferred (id type : string) (args : list pyval)
    (ctx ctx' : DSLContext) :
  validate_create id type args ctx = (Return tt, ctx') →
  infer_arg_type (PStr id) ctx' = Return (Some type).
Proof.
  unfold validate_create. unfold_M.
  destruct (get_constructors _ _); [|done].
  intros ->%try_constructors_Return. simpl. by rewrite lookup_insert_eq.
Qed.

Lemma created_variable_is_inferred_witness :
  infer_arg_type (PStr "7") (DSLContext_init fruit_provider) = Return (Some "int") ∧
  infer_arg_type (PStr "7")
    (set_variable "7" (Some "lib::Fruit") (DSLContext_init fruit_provider))
  = Return (Some "lib::Fruit").
Proof.
  split; [reflexivity|].
  apply (created_variable_is_inferred "7" "lib::Fruit" [PStr "apple"]
           (DSLContext_init fruit_provider)).
  vm_compute. reflexivity.
Defined.

(** ** Constructor resolution on string arguments *)

(** A Create step on an indexed class, with strings for arguments, walks
    the class's constructors in index order.  The first constructor that
    accepts the arguments ends the step, whatever constructors follow it:
    the step returns, a lookup of [id] in the environment now finds the
    step's type, and every other variable is as it was.  If no constructor
    accepts them, the step fails with [NoMatchingConstructor] and the
    environment is as it was. *)
Theorem validate_create_first_match (id type : string) (args : list pyval)
    (ctx : DSLContext) (cls : Class) :
  get_class (ast ctx) type = Some (SymClass cls) →
  Forall is_token args →
  let ctors := filter (λ m, meth_kind m = "constructor") (class_methods cls) in
  (∀ pre ctor post,
     ctors = pre ++ ctor :: post →
     Forall (λ c, ¬ accepts c args ctx) pre → accepts ctor args ctx →
     ∃ ctx', validate_create id type args ctx = (Return tt, ctx') ∧
       ast ctx' = ast ctx ∧
       variables ctx' !! id = Some (Some type) ∧
       ∀ k, k ≠ id → variables ctx' !! k = variables ctx !! k) ∧
  (Forall (λ c, ¬ accepts c args ctx) ctors →
     validate_create id type args ctx = (Raise (NoMatchingConstructor type), ctx)).
Proof.
  intros Hcls Htok ctors. unfold validate_create, get_constructors. unfold_M.
  rewrite Hcls. fold ctors. split.
  - intros pre ctor post -> Hpre Hok.
    rewrite try_constructors_first by done. eexists. split; [done|]. simpl.
    split_and!; [done | by rewrite lookup_insert_eq |].
    intros k Hk. by rewrite lookup_insert_ne.
  - intros Hall. by apply try_constructors_none.
Qed.

(** A crate made of a string: the constructor of an [int] refuses it, the
    second constructor accepts it, a third one would; the variable, bound to
    a fruit before, is a crate after, and the fruit next to it stays.  A
    crate made of ["1.5"] matches no constructor. *)
Lemma validate_create_first_match_witness :
  let ctx := set_variable "c" (Some "lib::Fruit")
               (set_variable "f" (Some "lib::Fruit")
                  (DSLContext_init crate_provider)) in
  (∃ ctx', validate_create "c" "lib::Crate" [PStr "apples"] ctx = (Return tt, ctx') ∧
     ast ctx' = ast ctx ∧
     variables ctx !! "c" = Some (Some "lib::Fruit") ∧
     variables ctx' !! "c" = Some (Some "lib::Crate") ∧
     variables ctx' !! "f" = Some (Some "lib::Fruit")) ∧
  validate_create "c" "lib::Crate" [PStr "1.5"] ctx
    = (Raise (NoMatchingConstructor "lib::Crate"), ctx).
Proof.
  intros ctx.
  pose (ctor_of := λ name type,
    {| meth_kind := "constructor"; meth_name := "Crate";
       meth_fqn := "lib::Crate::Crate"; meth_return_type := None;
       meth_params := [{| param_name := name; param_type := type |}] |}).
  assert (∀ name ty s t,
    infer_arg_type (PStr s) ctx = Return (Some t) → ty ≠ t →
    ¬ accepts (ctor_of name ty) [PStr s] ctx) as Hrefuse.
  { intros name ty s t Hs Ht [_ Hall]. unfold ctor_of in Hall.
    cbn [meth_params] in Hall. apply Forall2_cons_1 in Hall as [Hinfer _].
    rewrite Hs in Hinfer. cbn in Hinfer. congruence. }
  split.
  - destruct (proj1 (validate_create_first_match "c" "lib::Crate" [PStr "apples"]
      ctx Crate eq_refl ltac:(repeat constructor; by eexists))
      [ctor_of "size" "int"] (ctor_of "label" "std::string")
      [ctor_of "owner" "std::string"]) as (ctx' & Hrun & Hast & Hc & Hother).
    + reflexivity.
    + repeat constructor.
      by apply (Hrefuse "size" "int" "apples" "std::string").
    + split; [reflexivity | repeat constructor].
    + exists ctx'. split_and!; [done | done | done | done |].
      by rewrite Hother.
  - apply (proj2 (validate_create_first_match "c" "lib::Crate" [PStr "1.5"]
      ctx Crate eq_refl ltac:(repeat constructor; by eexists))).
    repeat constructor.
    + by apply (Hrefuse "size" "int" "1.5" "double").
    + by apply (Hrefuse "label" "std::string" "1.5" "double").
    + by apply (Hrefuse "owner" "std::string" "1.5" "double").
Defined.
